(** * DIM plug stats and plug descriptions

    A shallow embedding of [src/app/inventory/store/stats-conditional.ts]
    (conditional plug stats) and of the plug description composer that is
    stored with it ([usePlugDescriptions], [getPerkDescriptions],
    [stripUsedStrings]), followed by the properties of both.

    Conventions of the embedding:
    - manifest hashes and stat values are JavaScript numbers holding
      integers; they are modelled as [Z], and [+] on them as [Z.add];
    - an optional field or an [undefined] result is an [option];
    - [warnLog]/[infoLog] calls are recorded, in order, in an explicit log
      that every logging function returns next to its result;
    - a manifest lookup that fails raises in the source; here the function
      returns [None];
    - [weakMemoize] caches a pure function by argument identity and does not
      change what it returns, so the memoized body is modelled directly. *)

From stdpp Require Import base option list gmap strings.

#[local] Set Warnings "-clear-no-such-hyp".

(** ** Data model *)

(** [DestinyClass] of bungie-api-ts. *)
Inductive DestinyClass := Titan | Hunter | Warlock | Unknown.

#[global] Instance DestinyClass_eq_dec : EqDecision DestinyClass.
Proof. solve_decision. Defined.

(** [ItemPerkVisibility] of bungie-api-ts. *)
Inductive ItemPerkVisibility := Visible | Disabled | Hidden.

#[global] Instance ItemPerkVisibility_eq_dec : EqDecision ItemPerkVisibility.
Proof. solve_decision. Defined.

Record DestinyItemInvestmentStatDefinition := {
  statTypeHash : Z;
  value : Z;
  isConditionallyActive : bool
}.

Record DestinyDisplayPropertiesDefinition := {
  name : string;
  description : string
}.

Record DestinyItemPerkEntryDefinition := {
  perkHash : Z;
  perkVisibility : ItemPerkVisibility;
  requirementDisplayString : string
}.

Record DestinyItemPlugDefinition := {
  plugCategoryHash : Z
}.

Record DestinyInventoryItemDefinition := {
  hash : Z;
  displayProperties : DestinyDisplayPropertiesDefinition;
  traitHashes : option (list Z);
  itemCategoryHashes : option (list Z);
  plug : option DestinyItemPlugDefinition;
  perks : list DestinyItemPerkEntryDefinition;
  investmentStats : list DestinyItemInvestmentStatDefinition
}.

Record DestinySandboxPerkDefinition := {
  sandboxDisplayProperties : DestinyDisplayPropertiesDefinition
}.

(** The parts of [DimItem] that the stat conditions read. *)
Record DimCraftedInfo := {
  level : option Z
}.

Record DimItem := {
  itemHash : Z;
  itemClassType : DestinyClass;
  masterwork : bool;
  craftedInfo : option DimCraftedInfo
}.

(** [PlugStatActivityRule]; "always active" is the absence of a rule. *)
Inductive PlugStatActivityRule :=
| RuleNever
| RuleClassType (c : DestinyClass)
| RuleAdeptWeapon
| RuleMasterwork
| RuleEnhancedIntrinsic.

#[global] Instance PlugStatActivityRule_eq_dec : EqDecision PlugStatActivityRule.
Proof. solve_decision. Defined.

(** The [rule] discriminant of a rule object. *)
Inductive RuleTag := TagNever | TagClassType | TagAdeptWeapon | TagMasterwork | TagEnhancedIntrinsic.

#[global] Instance RuleTag_eq_dec : EqDecision RuleTag.
Proof. solve_decision. Defined.

Definition ruleTag (r : PlugStatActivityRule) : RuleTag :=
  match r with
  | RuleNever => TagNever
  | RuleClassType _ => TagClassType
  | RuleAdeptWeapon => TagAdeptWeapon
  | RuleMasterwork => TagMasterwork
  | RuleEnhancedIntrinsic => TagEnhancedIntrinsic
  end.

Record DimPlugInvestmentStat := {
  activityRule : option PlugStatActivityRule;
  plugStatTypeHash : Z;
  plugValue : Z
}.

(** ** Imported constants and tables

    The enums and JSON tables the module imports ([d2-known-values],
    [generated-enums], the [data/d2] tables) are not part of the embedded
    file; every function takes them as a parameter. *)
Record KnownValues := {
  ItemExoticCatalyst : Z;                    (* TraitHashes *)
  EXOTIC_CATALYST_TRAIT : Z;                 (* d2-known-values *)
  CraftingPlugsWeaponsModsEnhancers : Z;     (* PlugCategoryHashes *)
  ArmorMods : Z;                             (* ItemCategoryHashes *)
  Mobility : Z;                              (* StatHashes *)
  Resilience : Z;
  Recovery : Z;
  ElementalCapacitor : Z;                    (* ModsWithConditionalStats *)
  EnhancedElementalCapacitor : Z;
  EchoOfPersistence : Z;
  SparkOfFocus : Z;
  echoOfPersistence : Z;                     (* modsWithConditionalStats *)
  chargeHarvester : Z;
  masterworksWithCondStats : list Z;
  enhancedIntrinsics : gset Z;
  adeptWeaponHashes : list Z
}.

(** The literal in the Bipod workaround. *)
Definition Bipod : Z := 2282937672.

(** ** The log *)

Inductive LogEntry :=
| WarnUnknownStatEffect (defHash : Z) (defName : string)
| WarnMissingItem
| WarnMissingClassType
| WarnBipodWorkaround
| InfoConsolidating (idx2 idx : nat) (defHash : Z)
| WarnDifferentActivityRule (defHash : Z).

#[global] Instance LogEntry_eq_dec : EqDecision LogEntry.
Proof. solve_decision. Defined.

(** A computation that returns a value and the log entries it wrote. *)
Definition Logged (A : Type) : Type := A * list LogEntry.

Definition ret {A} (a : A) : Logged A := (a, []).

Definition bind {A B} (m : Logged A) (f : A → Logged B) : Logged B :=
  let r := f m.1 in (r.1, m.2 ++ r.2).

Definition logLine (e : LogEntry) : Logged unit := (tt, [e]).

Notation "'let*' x := m 'in' k" := (bind m (fun x => k))
  (at level 10, x name, m at level 100, k at level 200).
Notation "m ';;' k" := (bind m (fun _ => k))
  (at level 100, k at level 200, right associativity).

(** ** Array helpers *)

(** [arr.includes(x)] *)
Definition includes (l : list Z) (x : Z) : bool := bool_decide (x ∈ l).

(** [arr?.includes(x)], used as a condition: [undefined] is falsy. *)
Definition includes_opt (l : option (list Z)) (x : Z) : bool :=
  match l with
  | Some l => includes l x
  | None => false
  end.

(** [arr.findIndex(p)]; [None] stands for the source's [-1]. *)
Fixpoint findIndex {A} (p : A → bool) (l : list A) : option nat :=
  match l with
  | [] => None
  | x :: rest => if p x then Some 0 else S <$> findIndex p rest
  end.

(** Modelled from the spec: [filterMap] of [app/utils/collections] is not
    part of the embedded file. It maps [fn] over the list, in order and with
    the index, and keeps the results that are not [undefined]. *)
Fixpoint filterMapFrom {A B} (index : nat) (fn : A → nat → Logged (option B))
    (l : list A) : Logged (list B) :=
  match l with
  | [] => ret []
  | x :: rest =>
      let* mapped := fn x index in
      let* out := filterMapFrom (S index) fn rest in
      ret (match mapped with Some y => y :: out | None => out end)
  end.

Definition filterMap {A B} (l : list A) (fn : A → nat → Logged (option B)) : Logged (list B) :=
  filterMapFrom 0 fn l.

(** Modelled from the spec: [uniqBy] of [app/utils/collections] is not part
    of the embedded file. It keeps, in order, the first element for each
    value of [iteratee]. *)
Fixpoint uniqByFrom {A} (seen : list Z) (data : list A) (iteratee : A → Z) : list A :=
  match data with
  | [] => []
  | d :: rest =>
      if includes seen (iteratee d) then uniqByFrom seen rest iteratee
      else d :: uniqByFrom (iteratee d :: seen) rest iteratee
  end.

Definition uniqBy {A} (data : list A) (iteratee : A → Z) : list A :=
  uniqByFrom [] data iteratee.

(** ** [getPlugInvestmentStats]

    The loop body: add the value into the entry already recorded for the
    stat type, or append the entry. *)
Definition addInvestmentStat
    (processedStats : list DestinyItemInvestmentStatDefinition)
    (investmentStat : DestinyItemInvestmentStatDefinition)
    : list DestinyItemInvestmentStatDefinition :=
  match findIndex (λ s, bool_decide (statTypeHash s = statTypeHash investmentStat)) processedStats with
  | Some existingStatIndex =>
      match processedStats !! existingStatIndex with
      | Some existingStat =>
          <[existingStatIndex :=
              {| statTypeHash := statTypeHash existingStat;
                 value := (value existingStat + value investmentStat)%Z;
                 isConditionallyActive := isConditionallyActive existingStat |}]> processedStats
      | None => processedStats (* not reached: [findIndex] returns an index of the list *)
      end
  | None => processedStats ++ [investmentStat]
  end.

Definition getPlugInvestmentStats
    (investmentStats : list DestinyItemInvestmentStatDefinition)
    : list DestinyItemInvestmentStatDefinition :=
  foldl addInvestmentStat [] investmentStats.

(** An investment stat returned as it is where a [DimPlugInvestmentStat] is
    expected (the fast path): it has no [activityRule]. *)
Definition asPlugStat (s : DestinyItemInvestmentStatDefinition) : DimPlugInvestmentStat :=
  {| activityRule := None; plugStatTypeHash := statTypeHash s; plugValue := value s |}.

(** ** The consolidation loops of [mapAndFilterInvestmentStats]

    The body of the inner loop, at indices [idx < idx2]. *)
Definition consolidatePair (itemDef : DestinyInventoryItemDefinition) (idx idx2 : nat)
    (stats : list DimPlugInvestmentStat) : Logged (list DimPlugInvestmentStat) :=
  match stats !! idx, stats !! idx2 with
  | Some a, Some b =>
      if bool_decide (plugStatTypeHash a = plugStatTypeHash b) then
        if bool_decide (ruleTag <$> activityRule a = ruleTag <$> activityRule b) then
          let stats :=
            <[idx := {| activityRule := activityRule a;
                        plugStatTypeHash := plugStatTypeHash a;
                        plugValue := (plugValue a + plugValue b)%Z |}]> stats in
          let stats := delete idx2 stats in
          logLine (InfoConsolidating idx2 idx (hash itemDef));;
          ret stats
        else
          logLine (WarnDifferentActivityRule (hash itemDef));;
          ret stats
      else ret stats
  | _, _ => ret stats (* not reached: both indices stay below the length *)
  end.

(** [for (idx2 = stats.length - 1; idx2 > idx; idx2--)], with
    [k = idx2 - idx] iterations left. *)
Fixpoint consolidateInner (itemDef : DestinyInventoryItemDefinition) (idx k : nat)
    (stats : list DimPlugInvestmentStat) : Logged (list DimPlugInvestmentStat) :=
  match k with
  | 0 => ret stats
  | S k' =>
      let* stats := consolidatePair itemDef idx (idx + S k') stats in
      consolidateInner itemDef idx k' stats
  end.

(** [for (idx = stats.length - 2; idx >= 0; idx--)], with [n = idx + 1]
    iterations left. *)
Fixpoint consolidateOuter (itemDef : DestinyInventoryItemDefinition) (n : nat)
    (stats : list DimPlugInvestmentStat) : Logged (list DimPlugInvestmentStat) :=
  match n with
  | 0 => ret stats
  | S idx =>
      let* stats := consolidateInner itemDef idx (length stats - 1 - idx) stats in
      consolidateOuter itemDef idx stats
  end.

Definition consolidate (itemDef : DestinyInventoryItemDefinition)
    (stats : list DimPlugInvestmentStat) : Logged (list DimPlugInvestmentStat) :=
  consolidateOuter itemDef (length stats - 1) stats.

Section StatsConditional.

Variable kv : KnownValues.

(** ** [getPlugInvestmentStatActivityRule] *)

Definition getPlugInvestmentStatActivityRule
    (itemDef : DestinyInventoryItemDefinition)
    (stat : DestinyItemInvestmentStatDefinition) : Logged (option PlugStatActivityRule) :=
  if includes_opt (traitHashes itemDef) (ItemExoticCatalyst kv) then
    ret (Some RuleMasterwork)
  else if negb (isConditionallyActive stat) then
    ret None
  else if bool_decide (plugCategoryHash <$> plug itemDef = Some (CraftingPlugsWeaponsModsEnhancers kv)) then
    ret (Some RuleNever)
  else
    let defHash := hash itemDef in
    if bool_decide (defHash = ElementalCapacitor kv)
       || bool_decide (defHash = EnhancedElementalCapacitor kv) then
      ret (Some RuleNever)
    else if bool_decide (defHash = EchoOfPersistence kv)
            || bool_decide (defHash = SparkOfFocus kv) then
      let classType :=
        if bool_decide (statTypeHash stat = Mobility kv) then Some Hunter
        else if bool_decide (statTypeHash stat = Resilience kv) then Some Titan
        else if bool_decide (statTypeHash stat = Recovery kv) then Some Warlock
        else None in
      match classType with
      | None =>
          logLine (WarnUnknownStatEffect defHash (name (displayProperties itemDef)));;
          ret None
      | Some classType => ret (Some (RuleClassType classType))
      end
    else if includes (masterworksWithCondStats kv) defHash then
      ret (Some RuleAdeptWeapon)
    else if bool_decide (defHash ∈ enhancedIntrinsics kv) then
      ret (Some RuleEnhancedIntrinsic)
    else
      ret None.

(** ** [isPlugStatActive] *)

Definition warnMissingItem : Logged bool :=
  logLine WarnMissingItem;; ret true.

Definition isPlugStatActive (rule : option PlugStatActivityRule)
    (item : option DimItem) (classType : option DestinyClass) : Logged bool :=
  match rule with
  | None => ret true
  | Some RuleNever => ret false
  | Some (RuleClassType ruleClassType) =>
      (* classType ??= item?.classType *)
      let classType :=
        match classType with
        | Some c => Some c
        | None => itemClassType <$> item
        end in
      match classType with
      | None => logLine WarnMissingClassType;; ret true
      | Some c => ret (bool_decide (c = ruleClassType))
      end
  | Some RuleAdeptWeapon =>
      match item with
      | Some item => ret (includes (adeptWeaponHashes kv) (itemHash item))
      | None => warnMissingItem
      end
  | Some RuleMasterwork =>
      match item with
      | Some item => ret (masterwork item)
      | None => warnMissingItem
      end
  | Some RuleEnhancedIntrinsic =>
      match item with
      | Some item =>
          ret (bool_decide (20 ≤ default 0 (craftedInfo item ≫= level))%Z
               || includes (adeptWeaponHashes kv) (itemHash item))
      | None => warnMissingItem
      end
  end.

(** ** [mapAndFilterInvestmentStats] *)

(** The condition of the fast path. *)
Definition fastPathCondition (itemDef : DestinyInventoryItemDefinition)
    (investmentStats : list DestinyItemInvestmentStatDefinition) : bool :=
  negb (includes_opt (traitHashes itemDef) (ItemExoticCatalyst kv))
  && forallb (λ s, negb (isConditionallyActive s)) investmentStats.

(** The value assigned to [hasDupes] inside the fast-path test. *)
Definition duplicatesFound (investmentStats : list DestinyItemInvestmentStatDefinition) : bool :=
  negb (bool_decide (length (uniqBy investmentStats statTypeHash) = length investmentStats)).

(** The end of the callback given to [filterMap]: resolve the rule and drop
    a stat that is never active. *)
Definition resolveStat (itemDef : DestinyInventoryItemDefinition)
    (stat : DestinyItemInvestmentStatDefinition) : Logged (option DimPlugInvestmentStat) :=
  let* activityRule := getPlugInvestmentStatActivityRule itemDef stat in
  if bool_decide (ruleTag <$> activityRule = Some TagNever) then ret None
  else ret (Some {| activityRule := activityRule;
                    plugStatTypeHash := statTypeHash stat;
                    plugValue := value stat |}).

(** The callback given to [filterMap]. *)
Definition elaborateStat (itemDef : DestinyInventoryItemDefinition)
    (investmentStats : list DestinyItemInvestmentStatDefinition)
    (stat : DestinyItemInvestmentStatDefinition) (index : nat)
    : Logged (option DimPlugInvestmentStat) :=
  if bool_decide (hash itemDef = Bipod) then
    if bool_decide (length investmentStats = 4) then
      if bool_decide (2 ≤ index) then ret None else resolveStat itemDef stat
    else
      logLine WarnBipodWorkaround;; resolveStat itemDef stat
  else resolveStat itemDef stat.

(** Everything after the fast-path test; [hasDupes] is the local variable,
    [None] while it is still [undefined]. *)
Definition elaborateStats (itemDef : DestinyInventoryItemDefinition)
    (investmentStats : list DestinyItemInvestmentStatDefinition)
    (hasDupes : option bool) : Logged (list DimPlugInvestmentStat) :=
  let* stats := filterMap investmentStats (elaborateStat itemDef investmentStats) in
  if bool_decide (hasDupes = Some true) then consolidate itemDef stats
  else ret stats.

Definition mapAndFilterInvestmentStats (itemDef : DestinyInventoryItemDefinition)
    : Logged (list DimPlugInvestmentStat) :=
  let investmentStats := getPlugInvestmentStats (investmentStats itemDef) in
  if fastPathCondition itemDef investmentStats then
    let hasDupes := duplicatesFound investmentStats in
    if negb hasDupes then ret (asPlugStat <$> investmentStats)
    else elaborateStats itemDef investmentStats (Some hasDupes)
  else elaborateStats itemDef investmentStats None.

End StatsConditional.

(** * Plug descriptions *)

Record DimPlugPerkDescription := {
  descPerkHash : Z;
  descName : option string;
  descDescription : option string;
  descRequirement : option string
}.

(** The community description types ([descriptionInterface]), with the
    fields read here and one pass-through field each. *)
Record LinesContent := {
  text : option string;
  contentClassNames : list string
}.

Record Line := {
  lineText : option (list LinesContent);
  lineClassNames : list string
}.

Record Perk := {
  clarityHash : Z;
  statOnly : bool;   (* an absent [statOnly] is falsy *)
  simpleDescription : option (list Line)
}.

Record DimPlugDescriptions := {
  resultPerks : list DimPlugPerkDescription;
  communityInsight : option Perk
}.

(** The [descriptionsToDisplay] setting. *)
Inductive DescriptionOptions := bungie | community | both.

#[global] Instance DescriptionOptions_eq_dec : EqDecision DescriptionOptions.
Proof. solve_decision. Defined.

(** The manifest tables; [get] raises on a missing hash. *)
Record D2ManifestDefinitions := {
  InventoryItem : gmap Z DestinyInventoryItemDefinition;
  SandboxPerk : gmap Z DestinySandboxPerkDefinition
}.

(** [s || undefined] *)
Definition orUndefined (s : string) : option string :=
  if bool_decide (s = "") then None else Some s.

(** The state of [getPerkDescriptions]: [results] and [usedStrings]. *)
Definition DescState : Type := list DimPlugPerkDescription * gset string.

(** A string is shown at most once: a text that is already in
    [usedStrings] becomes [undefined], another one is recorded. *)
Definition useOnce (text : option string) (usedStrings : gset string)
    : option string * gset string :=
  match text with
  | Some t =>
      if bool_decide (t ∈ usedStrings) then (None, usedStrings)
      else (Some t, usedStrings ∪ {[t]})
  | None => (None, usedStrings)
  end.

(** [perkName && perkName !== plug.displayProperties.name ? perkName : undefined] *)
Definition shownPerkName (perkName plugName : string) : option string :=
  if negb (bool_decide (perkName = "")) && negb (bool_decide (perkName = plugName))
  then Some perkName else None.

Section PlugDescriptions.

Variable kv : KnownValues.

(** The body of the loop over the perks in [addPerkDescriptions]. *)
Definition addPerkDescription (plug : DestinyInventoryItemDefinition)
    (defs : D2ManifestDefinitions) (st : DescState)
    (perk : DestinyItemPerkEntryDefinition) : option DescState :=
  if bool_decide (perkVisibility perk = Hidden) then Some st
  else
    sandboxPerk ← SandboxPerk defs !! perkHash perk;
    let perkName := name (sandboxDisplayProperties sandboxPerk) in
    let d := useOnce (orUndefined (description (sandboxDisplayProperties sandboxPerk))) st.2 in
    let r := useOnce (orUndefined (requirementDisplayString perk)) d.2 in
    if bool_decide (is_Some d.1) || bool_decide (is_Some r.1) then
      Some (st.1 ++ [{| descPerkHash := perkHash perk;
                        descName := shownPerkName perkName (name (displayProperties plug));
                        descDescription := d.1;
                        descRequirement := r.1 |}], r.2)
    else Some (st.1, r.2).

Fixpoint forEachPerk (plug : DestinyInventoryItemDefinition) (defs : D2ManifestDefinitions)
    (perks : list DestinyItemPerkEntryDefinition) (st : DescState) : option DescState :=
  match perks with
  | [] => Some st
  | perk :: rest =>
      st ← addPerkDescription plug defs st perk;
      forEachPerk plug defs rest st
  end.

Definition addPerkDescriptions (plug : DestinyInventoryItemDefinition)
    (defs : D2ManifestDefinitions) (st : DescState) : option DescState :=
  perks ←
    (if bool_decide (hash plug = echoOfPersistence kv) then
       chargeHarvesterDef ← InventoryItem defs !! chargeHarvester kv;
       borrowed ← perks chargeHarvesterDef !! 1;   (* reading a perk that is not there raises *)
       Some (perks plug ++ [borrowed])
     else Some (perks plug));
  forEachPerk plug defs perks st.

Definition addDescriptionAsRequirement (plugDescription : option string) (st : DescState)
    : DescState :=
  match plugDescription with
  | Some d =>
      if bool_decide (d ∈ st.2) then st
      else (st.1 ++ [{| descPerkHash := 0; descName := None;
                        descDescription := None; descRequirement := Some d |}],
            st.2 ∪ {[d]})
  | None => st
  end.

Definition addDescriptionAsFunctionality (plugDescription : option string) (st : DescState)
    : DescState :=
  match plugDescription with
  | Some d =>
      if bool_decide (d ∈ st.2) then st
      else (st.1 ++ [{| descPerkHash := 0; descName := None;
                        descDescription := Some d; descRequirement := None |}],
            st.2 ∪ {[d]})
  | None => st
  end.

(** The fallback that keeps the first perk when nothing else was produced. *)
Definition keepFirstPerk (plug : DestinyInventoryItemDefinition)
    (defs : D2ManifestDefinitions) (st : DescState) : option DescState :=
  match st.1, perks plug with
  | [], firstPerk :: _ =>
      sandboxPerk ← SandboxPerk defs !! perkHash firstPerk;
      let perkName := name (sandboxDisplayProperties sandboxPerk) in
      let d := useOnce (orUndefined (description (sandboxDisplayProperties sandboxPerk))) st.2 in
      let r := useOnce (orUndefined (requirementDisplayString firstPerk)) d.2 in
      if bool_decide (is_Some d.1) || bool_decide (is_Some r.1) then
        Some (st.1 ++ [{| descPerkHash := perkHash firstPerk;
                          descName := shownPerkName perkName (name (displayProperties plug));
                          descDescription := d.1;
                          descRequirement := r.1 |}], r.2)
      else Some (st.1, r.2)
  | _, _ => Some st
  end.

Definition getPerkDescriptions (plug : DestinyInventoryItemDefinition)
    (defs : D2ManifestDefinitions) : option DescState :=
  let plugDescription := orUndefined (description (displayProperties plug)) in
  let start : DescState := ([], ∅) in
  st ←
    (if includes_opt (traitHashes plug) (EXOTIC_CATALYST_TRAIT kv) then
       st ← addPerkDescriptions plug defs start;
       Some (addDescriptionAsRequirement plugDescription st)
     else if includes_opt (itemCategoryHashes plug) (ArmorMods kv) then
       st ← addPerkDescriptions plug defs start;
       if bool_decide (0 < length st.1) then
         Some (addDescriptionAsRequirement plugDescription st)
       else
         Some (addDescriptionAsFunctionality plugDescription st)
     else
       match plugDescription with
       | Some _ => Some (addDescriptionAsFunctionality plugDescription start)
       | None => addPerkDescriptions plug defs start
       end);
  keepFirstPerk plug defs st.

(** ** [stripUsedStrings] *)

Definition keepContent (usedStrings : gset string) (content : LinesContent) : bool :=
  match text content ≫= orUndefined with
  | None => true                              (* [!content.text] *)
  | Some t => negb (bool_decide (t ∈ usedStrings))
  end.

Definition stripLine (usedStrings : gset string) (line : Line) : Line :=
  match lineText line with
  | Some contents =>
      {| lineText := Some (List.filter (keepContent usedStrings) contents);
         lineClassNames := lineClassNames line |}
  | None => line
  end.

(** [line.lineText?.length] as a condition *)
Definition hasLineText (line : Line) : bool :=
  match lineText line with
  | Some (_ :: _) => true
  | _ => false
  end.

Definition stripUsedStrings (communityInsight : Perk) (usedStrings : gset string)
    : option Perk :=
  match simpleDescription communityInsight with
  | None => None
  | Some lines =>
      let simpleDescription := stripLine usedStrings <$> lines in
      if negb (existsb hasLineText simpleDescription) then None
      else Some {| clarityHash := clarityHash communityInsight;
                   statOnly := statOnly communityInsight;
                   simpleDescription := Some simpleDescription |}
  end.

(** ** [usePlugDescriptions]

    The values the hooks read ([useD2Definitions], the community
    descriptions, the [descriptionsToDisplay] setting) and the
    [clarityDescriptions] feature flag are arguments. *)
Definition usePlugDescriptions (clarityDescriptions : bool)
    (defs : option D2ManifestDefinitions)
    (allClarityDescriptions : option (gmap Z Perk))
    (descriptionsToDisplay : DescriptionOptions)
    (plug : option DestinyInventoryItemDefinition) : option DimPlugDescriptions :=
  match plug, defs with
  | Some plug, Some defs =>
      let showBungieDescription :=
        negb clarityDescriptions || negb (bool_decide (descriptionsToDisplay = community)) in
      let showCommunityDescription :=
        clarityDescriptions && negb (bool_decide (descriptionsToDisplay = bungie)) in
      let showCommunityDescriptionOnly :=
        clarityDescriptions && bool_decide (descriptionsToDisplay = community) in
      '(perks, usedStrings) ← getPerkDescriptions plug defs;
      let communityInsight :=
        if showCommunityDescription then
          match allClarityDescriptions ≫= (.!! hash plug) with
          | Some clarityPerk =>
              if negb (statOnly clarityPerk) then
                match stripUsedStrings clarityPerk usedStrings with
                | Some communityInsightWithoutDupes =>
                    Some (if showBungieDescription then communityInsightWithoutDupes
                          else clarityPerk)
                | None => None
                end
              else None
          | None => None
          end
        else None in
      Some {| resultPerks :=
                if showBungieDescription
                   || (showCommunityDescriptionOnly && negb (bool_decide (is_Some communityInsight)))
                then perks else [];
              communityInsight := communityInsight |}
  | _, _ => Some {| resultPerks := []; communityInsight := None |}
  end.

End PlugDescriptions.

(** * Vocabulary of the properties *)

Section Vocabulary.

Variable kv : KnownValues.

(** A definition carries the Exotic catalyst trait. *)
Definition isExoticCatalyst (itemDef : DestinyInventoryItemDefinition) : Prop :=
  ∃ traits, traitHashes itemDef = Some traits ∧ ItemExoticCatalyst kv ∈ traits.

(** The definition is one of the two Elemental Capacitor mods. *)
Definition isElementalCapacitor (itemDef : DestinyInventoryItemDefinition) : Prop :=
  hash itemDef = ElementalCapacitor kv ∨ hash itemDef = EnhancedElementalCapacitor kv.

End Vocabulary.

(** ** The merge, as the specification words it

    "Entries sharing a stat type identifier are summed into one entry (order
    of first occurrence preserved)." *)

(** The sum of the values of the raw entries of stat type [h]. *)
Definition totalValue (h : Z) (raw : list DestinyItemInvestmentStatDefinition) : Z :=
  foldr Z.add 0%Z (value <$> filter (λ s, statTypeHash s = h) raw).

(** The first entry of each stat type, in order. *)
Fixpoint firstOfEachType (raw : list DestinyItemInvestmentStatDefinition)
    : list DestinyItemInvestmentStatDefinition :=
  match raw with
  | [] => []
  | s :: rest => s :: filter (λ x, statTypeHash x ≠ statTypeHash s) (firstOfEachType rest)
  end.

(** An entry with its value replaced by the total of its stat type. *)
Definition withTotal (raw : list DestinyItemInvestmentStatDefinition)
    (s : DestinyItemInvestmentStatDefinition) : DestinyItemInvestmentStatDefinition :=
  {| statTypeHash := statTypeHash s;
     value := totalValue (statTypeHash s) raw;
     isConditionallyActive := isConditionallyActive s |}.

(** [x] with its value increased by the value of [s]. *)
Definition bump (s x : DestinyItemInvestmentStatDefinition) : DestinyItemInvestmentStatDefinition :=
  {| statTypeHash := statTypeHash x;
     value := (value x + value s)%Z;
     isConditionallyActive := isConditionallyActive x |}.

Definition mergedStats (raw : list DestinyItemInvestmentStatDefinition)
    : list DestinyItemInvestmentStatDefinition :=
  withTotal raw <$> firstOfEachType raw.

(** ** Log entries of the consolidation pass *)

Definition isConsolidationEntry (e : LogEntry) : Prop :=
  match e with
  | InfoConsolidating _ _ _ | WarnDifferentActivityRule _ => True
  | _ => False
  end.

(** The number of times the Bipod warning was logged. *)
Definition bipodWarnings (log : list LogEntry) : nat :=
  length (filter (λ e, e = WarnBipodWorkaround) log).

(** ** Plug descriptions *)

(** A definition is in the armor mods category. *)
Definition isArmorMod (kv : KnownValues) (plug : DestinyInventoryItemDefinition) : Prop :=
  ∃ categories, itemCategoryHashes plug = Some categories ∧ ArmorMods kv ∈ categories.

(** A definition carries the trait the description composer tests. *)
Definition hasCatalystTrait (kv : KnownValues) (plug : DestinyInventoryItemDefinition) : Prop :=
  ∃ traits, traitHashes plug = Some traits ∧ EXOTIC_CATALYST_TRAIT kv ∈ traits.

(** The text of a line content is a string that is already used. *)
Definition textUsed (usedStrings : gset string) (content : LinesContent) : Prop :=
  match text content with
  | Some t => t ∈ usedStrings
  | None => False
  end.

#[global] Instance textUsed_dec usedStrings content : Decision (textUsed usedStrings content).
Proof. unfold textUsed. destruct (text content); apply _. Defined.

(** A line without the contents whose text is used, as the specification
    words the stripping. *)
Definition withoutUsedText (usedStrings : gset string) (line : Line) : Line :=
  {| lineText := filter (λ content, ¬ textUsed usedStrings content) <$> lineText line;
     lineClassNames := lineClassNames line |}.

(** The community description of the plug that is left to show: the feature
    is on, the table has an entry for the plug, the entry is not stat-only
    and stripping leaves something. *)
Definition communityTextSurvives (clarityDescriptions : bool)
    (allClarityDescriptions : option (gmap Z Perk))
    (plug : DestinyInventoryItemDefinition) (usedStrings : gset string) : Prop :=
  clarityDescriptions = true
  ∧ ∃ clarityPerk, allClarityDescriptions ≫= (.!! hash plug) = Some clarityPerk
      ∧ statOnly clarityPerk = false
      ∧ is_Some (stripUsedStrings clarityPerk usedStrings).

(** * Example inputs

    An assignment of the imported constants, to evaluate the functions on
    concrete definitions. The numbers are placeholders: no property below
    depends on them. *)
Definition sampleValues : KnownValues := {|
  ItemExoticCatalyst := 11;
  EXOTIC_CATALYST_TRAIT := 11;
  CraftingPlugsWeaponsModsEnhancers := 12;
  ArmorMods := 13;
  Mobility := 21;
  Resilience := 22;
  Recovery := 23;
  ElementalCapacitor := 31;
  EnhancedElementalCapacitor := 32;
  EchoOfPersistence := 33;
  SparkOfFocus := 34;
  echoOfPersistence := 33;
  chargeHarvester := 35;
  masterworksWithCondStats := [41; 42]%Z;
  enhancedIntrinsics := {[ 51; 52 ]}%Z;
  adeptWeaponHashes := [61; 62]%Z
|}.

Definition mkStat (h v : Z) (c : bool) : DestinyItemInvestmentStatDefinition :=
  {| statTypeHash := h; value := v; isConditionallyActive := c |}.

(** A definition with the given hash, trait hashes and investment stats and
    nothing else. *)
Definition mkDef (h : Z) (traits : option (list Z))
    (stats : list DestinyItemInvestmentStatDefinition) : DestinyInventoryItemDefinition :=
  {| hash := h;
     displayProperties := {| name := "plug"; description := "" |};
     traitHashes := traits;
     itemCategoryHashes := None;
     plug := None;
     perks := [];
     investmentStats := stats |}.

(** Elemental Capacitor with one stat whose conditional flag is unset. *)
Definition capacitorDef : DestinyInventoryItemDefinition :=
  mkDef (ElementalCapacitor sampleValues) None [mkStat 1 10 false].

(** An Exotic catalyst whose stat is not flagged as conditional. *)
Definition catalystDef : DestinyInventoryItemDefinition :=
  mkDef 70 (Some [ItemExoticCatalyst sampleValues]) [mkStat 1 10 false].

Definition hunterItem : DimItem :=
  {| itemHash := 80; itemClassType := Hunter; masterwork := false; craftedInfo := None |}.


(** Two conditional raw entries of one stat type on Elemental Capacitor. *)
Definition capacitorTwoStats : DestinyInventoryItemDefinition :=
  mkDef (ElementalCapacitor sampleValues) None [mkStat 1 5 true; mkStat 1 (-3) true].

(** Two unconditional raw entries of one stat type on a plug without any
    special case. *)
Definition plainTwoStats : DestinyInventoryItemDefinition :=
  mkDef 90 None [mkStat 1 5 false; mkStat 1 (-3) false].

(** A masterwork from [masterworksWithCondStats] with two raw entries of one
    stat type, the first conditional and the second not. *)
Definition adeptMasterworkDef : DestinyInventoryItemDefinition :=
  mkDef 41 None [mkStat 1 5 true; mkStat 1 (-3) false].

(** Bipod with four stats of different types, none of them conditional. *)
Definition bipodUnconditional : DestinyInventoryItemDefinition :=
  mkDef Bipod None [mkStat 1 (-25) false; mkStat 2 (-15) false;
                    mkStat 3 (-30) false; mkStat 4 (-20) false].

(** Bipod with four conditional stats of different types. *)
Definition bipodFourTypes : DestinyInventoryItemDefinition :=
  mkDef Bipod None [mkStat 1 (-25) true; mkStat 2 (-15) true;
                    mkStat 3 (-30) true; mkStat 4 (-20) true].

(** Bipod with the stats listed in the comment of the workaround: blast
    radius (1) and reload speed (2), twice each, all conditional. *)
Definition bipodAsDocumented : DestinyInventoryItemDefinition :=
  mkDef Bipod None [mkStat 1 (-25) true; mkStat 2 (-15) true;
                    mkStat 1 (-30) true; mkStat 2 (-20) true].

Definition emptyDefs : D2ManifestDefinitions :=
  {| InventoryItem := ∅; SandboxPerk := ∅ |}.

(** An armor mod without perks. *)
Definition armorModDef (traits : option (list Z)) : DestinyInventoryItemDefinition :=
  {| hash := 100;
     displayProperties := {| name := "mod"; description := "Deals fire damage" |};
     traitHashes := traits;
     itemCategoryHashes := Some [ArmorMods sampleValues];
     plug := None;
     perks := [];
     investmentStats := [] |}.

(** A community description whose only line repeats the text of
    [armorModDef]. *)
Definition repeatedInsight : Perk :=
  {| clarityHash := 100;
     statOnly := false;
     simpleDescription :=
       Some [{| lineText := Some [{| text := Some "Deals fire damage";
                                     contentClassNames := [] |}];
                lineClassNames := [] |}] |}.

(** A community description with a line of its own after the repeated one. *)
Definition longerInsight : Perk :=
  {| clarityHash := 100;
     statOnly := false;
     simpleDescription :=
       Some [{| lineText := Some [{| text := Some "Deals fire damage";
                                     contentClassNames := [] |}];
                lineClassNames := [] |};
             {| lineText := Some [{| text := Some "Lasts 10 seconds";
                                     contentClassNames := [] |}];
                lineClassNames := [] |}] |}.

(** * Further vocabulary and example inputs *)

(** The plug is a preview plug of the weapon enhancers. *)
Definition isEnhancerPreview (kv : KnownValues) (itemDef : DestinyInventoryItemDefinition) : Prop :=
  plugCategoryHash <$> plug itemDef = Some (CraftingPlugsWeaponsModsEnhancers kv).

(** The definition is one of the two mods that drain the class ability
    stat. *)
Definition isClassAbilityMod (kv : KnownValues) (itemDef : DestinyInventoryItemDefinition) : Prop :=
  hash itemDef = EchoOfPersistence kv ∨ hash itemDef = SparkOfFocus kv.

(** The crafted level of an item is at least 20. *)
Definition levelAtLeast20 (item : DimItem) : Prop :=
  ∃ info l, craftedInfo item = Some info ∧ level info = Some l ∧ (20 ≤ l)%Z.

(** A definition with the given hash, plug category and investment stats. *)
Definition mkPlugDef (h : Z) (category : Z)
    (stats : list DestinyItemInvestmentStatDefinition) : DestinyInventoryItemDefinition :=
  {| hash := h;
     displayProperties := {| name := "plug"; description := "" |};
     traitHashes := None;
     itemCategoryHashes := None;
     plug := Some {| plugCategoryHash := category |};
     perks := [];
     investmentStats := stats |}.

(** An adept weapon that was never crafted. *)
Definition adeptItem : DimItem :=
  {| itemHash := 61; itemClassType := Unknown; masterwork := false; craftedInfo := None |}.

(** The sum of the values of a list of investment stats. *)
Definition sumValues (l : list DestinyItemInvestmentStatDefinition) : Z :=
  foldr Z.add 0%Z (value <$> l).

(** A merged stat with its resolved rule, unless the rule is never-active. *)
Definition ruledStat (kv : KnownValues) (itemDef : DestinyInventoryItemDefinition)
    (s : DestinyItemInvestmentStatDefinition) : option DimPlugInvestmentStat :=
  let rule := (getPlugInvestmentStatActivityRule kv itemDef s).1 in
  if decide (rule = Some RuleNever) then None
  else Some {| activityRule := rule; plugStatTypeHash := statTypeHash s; plugValue := value s |}.

(** Three stats of different types. *)
Definition threeStats : list DestinyItemInvestmentStatDefinition :=
  [mkStat 1 5 true; mkStat 2 7 false; mkStat 3 (-3) true].

(** A merged stat under the masterwork rule. *)
Definition masterworkStat (s : DestinyItemInvestmentStatDefinition) : DimPlugInvestmentStat :=
  {| activityRule := Some RuleMasterwork;
     plugStatTypeHash := statTypeHash s;
     plugValue := value s |}.

(** A catalyst with two raw entries of one stat type and one of another. *)
Definition catalystThreeStats : DestinyInventoryItemDefinition :=
  mkDef 70 (Some [ItemExoticCatalyst sampleValues])
    [mkStat 1 10 false; mkStat 2 4 true; mkStat 1 5 true].

(** Spark of Focus with a recovery stat and a stat of another type. *)
Definition sparkDef : DestinyInventoryItemDefinition :=
  mkDef (SparkOfFocus sampleValues) None [mkStat 23 (-10) true; mkStat 99 (-10) true].

(** The texts an entry shows: its description, then its requirement. *)
Definition entryTexts (e : DimPlugPerkDescription) : list string :=
  option_list (descDescription e) ++ option_list (descRequirement e).

(** The texts a list of entries shows, in order. *)
Definition shownTexts (entries : list DimPlugPerkDescription) : list string :=
  entries ≫= entryTexts.

(** The perk descriptions are computed from the perks of the plug: the plug
    carries the catalyst trait, is an armor mod, or has no description. *)
Definition readsPerks (kv : KnownValues) (plug : DestinyInventoryItemDefinition) : Prop :=
  hasCatalystTrait kv plug ∨ isArmorMod kv plug ∨ description (displayProperties plug) = "".

(** A line has a content without text. *)
Definition hasTextlessContent (line : Line) : Prop :=
  ∃ contents content, lineText line = Some contents ∧ content ∈ contents
    ∧ (text content = None ∨ text content = Some "").

(** A plug that is neither a catalyst nor an armor mod, with a description
    and a perk that the manifest does not know. *)
Definition describedPlug : DestinyInventoryItemDefinition :=
  {| hash := 300;
     displayProperties := {| name := "perk"; description := "Reloads faster" |};
     traitHashes := None;
     itemCategoryHashes := None;
     plug := None;
     perks := [{| perkHash := 301; perkVisibility := Visible;
                  requirementDisplayString := "" |}];
     investmentStats := [] |}.

(** An armor mod with two visible perks. *)
Definition twoPerkMod : DestinyInventoryItemDefinition :=
  {| hash := 400;
     displayProperties := {| name := "mod"; description := "Stacks up to 3 times" |};
     traitHashes := None;
     itemCategoryHashes := Some [ArmorMods sampleValues];
     plug := None;
     perks := [{| perkHash := 401; perkVisibility := Visible;
                  requirementDisplayString := "In raids only" |};
               {| perkHash := 402; perkVisibility := Visible;
                  requirementDisplayString := "In raids only" |}];
     investmentStats := [] |}.

(** A manifest with the two perks of [twoPerkMod], which share their
    description. *)
Definition twoPerkDefs : D2ManifestDefinitions :=
  {| InventoryItem := ∅;
     SandboxPerk :=
       {[ 401%Z := {| sandboxDisplayProperties :=
                        {| name := "mod"; description := "Deals fire damage" |} |};
          402%Z := {| sandboxDisplayProperties :=
                        {| name := "Second"; description := "Deals fire damage" |} |} ]} |}.

(** A community description with an icon, a content without text, before
    the repeated text. *)
Definition iconInsight : Perk :=
  {| clarityHash := 100;
     statOnly := false;
     simpleDescription :=
       Some [{| lineText := Some [{| text := None; contentClassNames := ["solar"] |};
                                  {| text := Some "Deals fire damage";
                                     contentClassNames := [] |}];
                lineClassNames := [] |}] |}.

(** What [getPerkDescriptions] keeps true of its state: no text is shown
    twice, the used strings are the shown texts, and no entry is blank or
    named like the plug. *)
Definition descInv (plugName : string) (st : DescState) : Prop :=
  NoDup (shownTexts st.1)
  ∧ (∀ t, t ∈ st.2 ↔ t ∈ shownTexts st.1)
  ∧ Forall (λ e, entryTexts e ≠ [] ∧ descName e ≠ Some "" ∧ descName e ≠ Some plugName) st.1.

(** ** The consolidation pass, as a function on lists

    Two entries that the pass merges: the same stat type and the same rule
    discriminant. *)
Definition sameStat (a b : DimPlugInvestmentStat) : Prop :=
  plugStatTypeHash a = plugStatTypeHash b
  ∧ ruleTag <$> activityRule a = ruleTag <$> activityRule b.

#[global] Instance sameStat_dec a b : Decision (sameStat a b).
Proof. unfold sameStat. apply _. Defined.

Definition sumPlugValues (l : list DimPlugInvestmentStat) : Z :=
  foldr Z.add 0%Z (plugValue <$> l).

(** [a] with the values of the entries of [rest] that are merged into it. *)
Definition absorb (a : DimPlugInvestmentStat) (rest : list DimPlugInvestmentStat)
    : DimPlugInvestmentStat :=
  {| activityRule := activityRule a;
     plugStatTypeHash := plugStatTypeHash a;
     plugValue := (plugValue a + sumPlugValues (filter (sameStat a) rest))%Z |}.

Definition consolidateStep (a : DimPlugInvestmentStat) (rest : list DimPlugInvestmentStat)
    : list DimPlugInvestmentStat :=
  absorb a rest :: filter (λ b, ¬ sameStat a b) rest.

(** Every entry takes up the later entries of its stat type and rule
    discriminant, starting from the end of the list. *)
Definition consolidated (stats : list DimPlugInvestmentStat) : list DimPlugInvestmentStat :=
  foldr consolidateStep [] stats.

(** The sum of the values of the entries of stat type [h]. *)
Definition totalPlugValue (h : Z) (stats : list DimPlugInvestmentStat) : Z :=
  sumPlugValues (filter (λ s, plugStatTypeHash s = h) stats).

(** Stats with repeated stat types, all without a rule. *)
Definition repeatedStats : list DimPlugInvestmentStat :=
  [{| activityRule := None; plugStatTypeHash := 1; plugValue := 5 |};
   {| activityRule := None; plugStatTypeHash := 2; plugValue := 7 |};
   {| activityRule := None; plugStatTypeHash := 1; plugValue := -3 |};
   {| activityRule := None; plugStatTypeHash := 2; plugValue := 1 |};
   {| activityRule := None; plugStatTypeHash := 1; plugValue := 9 |}].

(** The entries computed for [twoPerkMod] with [twoPerkDefs]: the second
    perk repeats both texts of the first and shows nothing. *)
Definition twoPerkEntries : list DimPlugPerkDescription :=
  [{| descPerkHash := 401; descName := None;
      descDescription := Some "Deals fire damage";
      descRequirement := Some "In raids only" |};
   {| descPerkHash := 0; descName := None;
      descDescription := None;
      descRequirement := Some "Stacks up to 3 times" |}].

Definition twoPerkUsed : gset string :=
  {[ "Deals fire damage"; "In raids only"; "Stacks up to 3 times" ]}.

(** The entry computed for [armorModDef]. *)
Definition armorModEntries : list DimPlugPerkDescription :=
  [{| descPerkHash := 0; descName := None;
      descDescription := Some "Deals fire damage"; descRequirement := None |}].

(** [longerInsight] without the text of [armorModDef]. *)
Definition longerInsightStripped : Perk :=
  {| clarityHash := 100;
     statOnly := false;
     simpleDescription :=
       Some [{| lineText := Some []; lineClassNames := [] |};
             {| lineText := Some [{| text := Some "Lasts 10 seconds";
                                     contentClassNames := [] |}];
                lineClassNames := [] |}] |}.

(** Echo of Persistence, without description and perks. *)
Definition echoDef : DestinyInventoryItemDefinition :=
  mkDef (echoOfPersistence sampleValues) None [].

(** Two stats of different types. *)
Definition distinctStats : list DimPlugInvestmentStat :=
  [{| activityRule := None; plugStatTypeHash := 1; plugValue := 5 |};
   {| activityRule := Some RuleMasterwork; plugStatTypeHash := 2; plugValue := 7 |}].

(** ** Community text that does not survive

    Every content of every line of the community description carries a text
    that is already used, so that stripping leaves no content at all. *)
Definition everyTextUsed (usedStrings : gset string) (clarityPerk : Perk) : Prop :=
  ∀ lines, simpleDescription clarityPerk = Some lines →
    Forall (λ line, ∀ contents, lineText line = Some contents →
                                Forall (textUsed usedStrings) contents) lines.

(** No community description of the plug is left to show: the feature is
    off, the table has no entry for the plug, the entry is stat-only, or
    every text of the entry is already used. *)
Definition noCommunityText (clarityDescriptions : bool)
    (allClarityDescriptions : option (gmap Z Perk))
    (plug : DestinyInventoryItemDefinition) (usedStrings : gset string) : Prop :=
  clarityDescriptions = false
  ∨ allClarityDescriptions ≫= (.!! hash plug) = None
  ∨ ∃ clarityPerk, allClarityDescriptions ≫= (.!! hash plug) = Some clarityPerk
      ∧ (statOnly clarityPerk = true ∨ everyTextUsed usedStrings clarityPerk).

(** No content of the community description carries a text. *)
Definition withoutAnyText (clarityPerk : Perk) : Prop :=
  ∀ lines, simpleDescription clarityPerk = Some lines →
    Forall (λ line, ∀ contents, lineText line = Some contents →
                                Forall (λ content, text content = None) contents) lines.

(** [iconInsight] without its text: the icon alone. *)
Definition iconOnlyInsight : Perk :=
  {| clarityHash := 100;
     statOnly := false;
     simpleDescription :=
       Some [{| lineText := Some [{| text := None; contentClassNames := ["solar"] |}];
                lineClassNames := [] |}] |}.


(** A plug without description and without perks. *)
Definition blankDef : DestinyInventoryItemDefinition := mkDef 500 None [].
(** * Properties of the stat activity rules *)

Section RuleProperties.

Variable kv : KnownValues.

Lemma includes_true l x : includes l x = true ↔ x ∈ l.
Proof. unfold includes. by rewrite bool_decide_eq_true. Qed.

Lemma includes_false l x : includes l x = false ↔ x ∉ l.
Proof. unfold includes. by rewrite bool_decide_eq_false. Qed.

Lemma includes_opt_catalyst itemDef :
  includes_opt (traitHashes itemDef) (ItemExoticCatalyst kv) = true ↔ isExoticCatalyst kv itemDef.
Proof.
  unfold isExoticCatalyst. destruct (traitHashes itemDef) as [traits|]; simpl.
  - rewrite includes_true. split; [eauto|]. by intros (? & [= <-] & ?).
  - split; [done|]. by intros (? & ? & ?).
Qed.

Lemma includes_opt_not_catalyst itemDef :
  includes_opt (traitHashes itemDef) (ItemExoticCatalyst kv) = false ↔ ¬ isExoticCatalyst kv itemDef.
Proof. rewrite <-includes_opt_catalyst. by destruct (includes_opt _ _). Qed.

(** C3: a definition with the Exotic catalyst trait gets the masterwork rule
    for every stat, whatever the stat's conditional flag and whatever the
    other branches of the ladder would answer; nothing is logged. *)
Theorem catalyst_rule_masterwork itemDef stat :
  isExoticCatalyst kv itemDef →
  getPlugInvestmentStatActivityRule kv itemDef stat = (Some RuleMasterwork, []).
Proof.
  intros Hcat%includes_opt_catalyst.
  unfold getPlugInvestmentStatActivityRule. by rewrite Hcat.
Qed.

(** The fast path of the ladder: without the catalyst trait, a stat whose
    conditional flag is unset has no rule. *)
Lemma unconditional_rule_none itemDef stat :
  ¬ isExoticCatalyst kv itemDef →
  isConditionallyActive stat = false →
  getPlugInvestmentStatActivityRule kv itemDef stat = (None, []).
Proof.
  intros Hcat%includes_opt_not_catalyst Hflag.
  unfold getPlugInvestmentStatActivityRule. by rewrite Hcat, Hflag.
Qed.

(** C1, as the code has it: for the Elemental Capacitor mods the rule is
    never-active exactly for the stats whose conditional flag is set, on a
    definition without the catalyst trait. With the flag unset the stat has
    no rule (always active), and the catalyst trait gives the masterwork
    rule first. *)
Theorem capacitor_rule itemDef stat :
  isElementalCapacitor kv itemDef →
  getPlugInvestmentStatActivityRule kv itemDef stat =
    (if includes_opt (traitHashes itemDef) (ItemExoticCatalyst kv) then Some RuleMasterwork
     else if isConditionallyActive stat then Some RuleNever
     else None, []).
Proof.
  intros Hcap. unfold getPlugInvestmentStatActivityRule.
  destruct (includes_opt _ _); [done|].
  destruct (isConditionallyActive stat); simpl; [|done].
  case_bool_decide; [done|].
  assert (bool_decide (hash itemDef = ElementalCapacitor kv)
          || bool_decide (hash itemDef = EnhancedElementalCapacitor kv) = true) as ->; [|done].
  apply orb_true_iff. rewrite !bool_decide_eq_true. exact Hcap.
Qed.

(** C6: a class-gated rule evaluated without an item and without a class
    type is satisfied and logs the missing class type; with a class type,
    the explicit one first and the item's otherwise, the answer is whether
    it is the rule's class, and nothing is logged. *)
Theorem classType_rule_active ruleClass :
  isPlugStatActive kv (Some (RuleClassType ruleClass)) None None = (true, [WarnMissingClassType])
  ∧ (∀ item c,
       isPlugStatActive kv (Some (RuleClassType ruleClass)) item (Some c)
       = (bool_decide (c = ruleClass), []))
  ∧ (∀ item,
       isPlugStatActive kv (Some (RuleClassType ruleClass)) (Some item) None
       = (bool_decide (itemClassType item = ruleClass), [])).
Proof. done. Qed.

End RuleProperties.

(** C3 at [catalystDef]. *)
Lemma catalyst_rule_masterwork_witness :
  isConditionallyActive (mkStat 1 10 false) = false
  ∧ getPlugInvestmentStatActivityRule sampleValues catalystDef (mkStat 1 10 false)
    = (Some RuleMasterwork, []).
Proof.
  split; [reflexivity|].
  apply (catalyst_rule_masterwork sampleValues catalystDef (mkStat 1 10 false)).
  exists [ItemExoticCatalyst sampleValues]. split; [reflexivity|]. apply list_elem_of_here.
Defined.

(** C1 fails for a stat whose conditional flag is unset: the stat of
    [capacitorDef] has no rule at all. *)
Lemma capacitor_unset_flag_counterexample :
  hash capacitorDef = ElementalCapacitor sampleValues
  ∧ investmentStats capacitorDef = [mkStat 1 10 false]
  ∧ (getPlugInvestmentStatActivityRule sampleValues capacitorDef (mkStat 1 10 false)).1 = None
  ∧ (getPlugInvestmentStatActivityRule sampleValues capacitorDef (mkStat 1 10 false)).1
    ≠ Some RuleNever.
Proof.
  split; [reflexivity|]. split; [reflexivity|].
  split; [vm_compute; reflexivity | vm_compute; discriminate].
Qed.

(** C1 as the code has it, at the enhanced mod with a conditional stat. *)
Lemma capacitor_rule_witness :
  getPlugInvestmentStatActivityRule sampleValues
    (mkDef (EnhancedElementalCapacitor sampleValues) None [mkStat 1 10 true]) (mkStat 1 10 true)
  = (Some RuleNever, []).
Proof.
  apply (capacitor_rule sampleValues
           (mkDef (EnhancedElementalCapacitor sampleValues) None [mkStat 1 10 true])
           (mkStat 1 10 true)).
  right. reflexivity.
Defined.

(** * Properties of the merge *)

Section MergeProperties.

Implicit Types (s x : DestinyItemInvestmentStatDefinition).
Implicit Types (raw m : list DestinyItemInvestmentStatDefinition).

Lemma addInvestmentStat_nil s : addInvestmentStat [] s = [s].
Proof. done. Qed.

Lemma addInvestmentStat_cons x m s :
  addInvestmentStat (x :: m) s =
    if decide (statTypeHash x = statTypeHash s) then bump s x :: m
    else x :: addInvestmentStat m s.
Proof.
  unfold addInvestmentStat. simpl. case_bool_decide; case_decide; try done.
  destruct (findIndex _ m) as [i|]; simpl; [|done].
  by destruct (m !! i).
Qed.

Lemma addInvestmentStat_fresh m s :
  statTypeHash s ∉ statTypeHash <$> m → addInvestmentStat m s = m ++ [s].
Proof.
  induction m as [|x m IH]; intros Hs; [done|].
  rewrite addInvestmentStat_cons. rewrite fmap_cons, not_elem_of_cons in Hs.
  destruct Hs as [Hne Hs]. rewrite decide_False by done. by rewrite IH.
Qed.

Lemma addInvestmentStat_present m s :
  NoDup (statTypeHash <$> m) →
  statTypeHash s ∈ statTypeHash <$> m →
  addInvestmentStat m s =
    (λ x, if decide (statTypeHash x = statTypeHash s) then bump s x else x) <$> m.
Proof.
  induction m as [|x m IH]; intros Hnd Hin; [by apply elem_of_nil in Hin|].
  rewrite addInvestmentStat_cons, fmap_cons. rewrite fmap_cons in Hnd, Hin.
  apply NoDup_cons in Hnd as [Hx Hnd]. case_decide as Heq.
  - f_equal. rewrite <-(list_fmap_id m) at 1. apply list_fmap_ext.
    intros i y Hy. rewrite decide_False; [done|].
    intros Hys. apply Hx. rewrite Heq, <-Hys.
    apply list_elem_of_fmap. exists y. split; [done|]. by eapply list_elem_of_lookup_2.
  - f_equal. apply IH; [done|]. apply elem_of_cons in Hin as [Hin|Hin]; [congruence|done].
Qed.

Lemma elem_of_firstOfEachType_types raw h :
  h ∈ statTypeHash <$> firstOfEachType raw ↔ h ∈ statTypeHash <$> raw.
Proof.
  induction raw as [|s raw IH]; [done|]. simpl.
  rewrite !elem_of_cons, <-IH, !list_elem_of_fmap.
  split.
  - intros [->|(y & -> & Hy)]; [by left|].
    apply list_elem_of_filter in Hy as [_ Hy]. right. eauto.
  - intros [->|(y & -> & Hy)]; [by left|].
    destruct (decide (statTypeHash y = statTypeHash s)) as [Heq|Hne]; [by left|].
    right. exists y. split; [done|]. by apply list_elem_of_filter.
Qed.

Lemma NoDup_firstOfEachType raw : NoDup (statTypeHash <$> firstOfEachType raw).
Proof.
  induction raw as [|s raw IH]; simpl; [constructor|].
  apply NoDup_cons. split.
  - intros (y & Heq & Hy)%list_elem_of_fmap.
    apply list_elem_of_filter in Hy as [Hne _]. by apply Hne.
  - refine (sublist_NoDup _ _ IH _). apply fmap_sublist, sublist_filter.
Qed.

Lemma firstOfEachType_snoc raw s :
  firstOfEachType (raw ++ [s]) =
    if decide (statTypeHash s ∈ statTypeHash <$> raw) then firstOfEachType raw
    else firstOfEachType raw ++ [s].
Proof.
  induction raw as [|a raw IH].
  - rewrite decide_False; [done|]. apply not_elem_of_nil.
  - rewrite <-app_comm_cons, fmap_cons. cbn [firstOfEachType]. rewrite IH.
    destruct (decide (statTypeHash s ∈ statTypeHash <$> raw)) as [Hin|Hnin].
    + rewrite decide_True; [done|]. by apply elem_of_cons; right.
    + rewrite filter_app, filter_cons, filter_nil.
      destruct (decide (statTypeHash s = statTypeHash a)) as [Heq|Hne].
      * rewrite decide_False by (intros H; by apply H).
        rewrite decide_True by (apply elem_of_cons; by left). by rewrite app_nil_r.
      * rewrite decide_True by done.
        rewrite decide_False; [done|]. rewrite not_elem_of_cons. done.
Qed.

Lemma totalValue_snoc h raw s :
  totalValue h (raw ++ [s]) =
    (totalValue h raw + (if decide (statTypeHash s = h) then value s else 0))%Z.
Proof.
  unfold totalValue. rewrite filter_app, fmap_app, foldr_app, filter_cons, filter_nil.
  generalize (value <$> filter (λ s0, statTypeHash s0 = h) raw). intros l.
  case_decide; simpl.
  - induction l as [|v l IH]; simpl; [lia|]. rewrite IH. lia.
  - rewrite Z.add_0_r. done.
Qed.

Lemma totalValue_absent h raw :
  h ∉ statTypeHash <$> raw → totalValue h raw = 0%Z.
Proof.
  intros Hh. unfold totalValue.
  assert (filter (λ s, statTypeHash s = h) raw = []) as ->; [|done].
  induction raw as [|y raw IH]; [done|].
  rewrite fmap_cons, not_elem_of_cons in Hh. destruct Hh as [Hne Hh].
  rewrite filter_cons, decide_False by congruence. by apply IH.
Qed.

Lemma types_mergedStats raw :
  statTypeHash <$> mergedStats raw = statTypeHash <$> firstOfEachType raw.
Proof. unfold mergedStats. rewrite <-list_fmap_compose. done. Qed.

Lemma mergedStats_snoc raw s :
  mergedStats (raw ++ [s]) = addInvestmentStat (mergedStats raw) s.
Proof.
  unfold mergedStats at 1. rewrite firstOfEachType_snoc.
  destruct (decide (statTypeHash s ∈ statTypeHash <$> raw)) as [Hin|Hnin].
  - rewrite addInvestmentStat_present.
    + unfold mergedStats. rewrite <-list_fmap_compose. apply list_fmap_ext.
      intros i x _. simpl. unfold withTotal at 1. rewrite totalValue_snoc.
      case_decide as H1; case_decide as H2; simpl in *; try congruence;
        unfold withTotal, bump; simpl; f_equal; lia.
    + rewrite types_mergedStats. apply NoDup_firstOfEachType.
    + rewrite types_mergedStats. by apply elem_of_firstOfEachType_types.
  - rewrite addInvestmentStat_fresh.
    + rewrite fmap_app. unfold mergedStats. f_equal.
      * apply list_fmap_ext. intros i x Hx. unfold withTotal. rewrite totalValue_snoc.
        rewrite decide_False; [by rewrite Z.add_0_r|].
        intros Heq. apply Hnin. rewrite Heq. apply elem_of_firstOfEachType_types.
        apply list_elem_of_fmap. exists x. split; [done|]. by eapply list_elem_of_lookup_2.
      * simpl. unfold withTotal. rewrite totalValue_snoc, decide_True by done.
        rewrite totalValue_absent by done. by destruct s.
    + rewrite types_mergedStats. by rewrite elem_of_firstOfEachType_types.
Qed.

(** The loop of [getPlugInvestmentStats] computes the merge. *)
Lemma getPlugInvestmentStats_mergedStats raw :
  getPlugInvestmentStats raw = mergedStats raw.
Proof.
  induction raw as [|s raw IH] using rev_ind; [done|].
  unfold getPlugInvestmentStats in *. rewrite foldl_snoc, IH. by rewrite mergedStats_snoc.
Qed.

(** The merged entries have pairwise different stat types. *)
Lemma NoDup_getPlugInvestmentStats raw :
  NoDup (statTypeHash <$> getPlugInvestmentStats raw).
Proof.
  rewrite getPlugInvestmentStats_mergedStats, types_mergedStats.
  apply NoDup_firstOfEachType.
Qed.

End MergeProperties.

(** * Properties of the elaboration *)

Section LoggedLaws.

Context {A B : Type}.

Lemma bind_ret_l (a : A) (f : A → Logged B) : bind (ret a) f = f a.
Proof. unfold bind, ret. simpl. by destruct (f a). Qed.

Lemma bind_ret_r (m : Logged A) : bind m ret = m.
Proof. unfold bind, ret. destruct m. simpl. by rewrite app_nil_r. Qed.

Lemma bind_fst (m : Logged A) (f : A → Logged B) : (bind m f).1 = (f m.1).1.
Proof. done. Qed.

Lemma bind_snd (m : Logged A) (f : A → Logged B) : (bind m f).2 = m.2 ++ (f m.1).2.
Proof. done. Qed.

End LoggedLaws.

Section ElaborationProperties.

Variable kv : KnownValues.

Implicit Types (itemDef : DestinyInventoryItemDefinition).
Implicit Types (s stat : DestinyItemInvestmentStatDefinition).
Implicit Types (m : list DestinyItemInvestmentStatDefinition).

(** [uniqBy] returns a list without repeated keys as it is. *)
Lemma uniqByFrom_NoDup {A} (key : A → Z) (data : list A) (seen : list Z) :
  NoDup (key <$> data) →
  (∀ x, x ∈ data → key x ∉ seen) →
  uniqByFrom seen data key = data.
Proof.
  revert seen. induction data as [|d data IH]; intros seen Hnd Hseen; [done|].
  rewrite fmap_cons in Hnd. apply NoDup_cons in Hnd as [Hd Hnd].
  simpl. assert (includes seen (key d) = false) as ->.
  { apply includes_false, Hseen, list_elem_of_here. }
  f_equal. apply IH; [done|]. intros x Hx. rewrite not_elem_of_cons. split.
  - intros Heq. apply Hd. rewrite <-Heq. by apply list_elem_of_fmap_2.
  - apply Hseen. by apply list_elem_of_further.
Qed.

(** The duplicate test is made on the merged list, and finds nothing. *)
Lemma duplicatesFound_merged raw :
  duplicatesFound (getPlugInvestmentStats raw) = false.
Proof.
  unfold duplicatesFound, uniqBy.
  rewrite uniqByFrom_NoDup.
  - by rewrite bool_decide_eq_true_2.
  - apply NoDup_getPlugInvestmentStats.
  - intros x _. apply not_elem_of_nil.
Qed.

(** Without duplicates found, [mapAndFilterInvestmentStats] is the fast path
    or one [filterMap] over the merged list. *)
Lemma mapAndFilterInvestmentStats_unfold itemDef :
  let merged := getPlugInvestmentStats (investmentStats itemDef) in
  mapAndFilterInvestmentStats kv itemDef =
    if fastPathCondition kv itemDef merged then ret (asPlugStat <$> merged)
    else filterMap merged (elaborateStat kv itemDef merged).
Proof.
  intros merged. unfold mapAndFilterInvestmentStats. fold merged.
  unfold merged at 2. rewrite duplicatesFound_merged. simpl.
  destruct (fastPathCondition kv itemDef merged); [done|].
  unfold elaborateStats. rewrite bool_decide_eq_false_2 by done. apply bind_ret_r.
Qed.

(** What the rule resolver can log. *)
Lemma getPlugInvestmentStatActivityRule_log itemDef stat e :
  e ∈ (getPlugInvestmentStatActivityRule kv itemDef stat).2 →
  e = WarnUnknownStatEffect (hash itemDef) (name (displayProperties itemDef)).
Proof.
  unfold getPlugInvestmentStatActivityRule.
  repeat (case_match; simpl; try (by intros ?%elem_of_nil));
    by intros ->%list_elem_of_singleton.
Qed.

Lemma resolveStat_log itemDef stat :
  (resolveStat kv itemDef stat).2 = (getPlugInvestmentStatActivityRule kv itemDef stat).2.
Proof.
  unfold resolveStat. rewrite bind_snd. case_bool_decide; simpl; by rewrite app_nil_r.
Qed.

Lemma resolveStat_Some itemDef stat y :
  (resolveStat kv itemDef stat).1 = Some y →
  plugStatTypeHash y = statTypeHash stat ∧ plugValue y = value stat
  ∧ activityRule y = (getPlugInvestmentStatActivityRule kv itemDef stat).1
  ∧ activityRule y ≠ Some RuleNever.
Proof.
  unfold resolveStat. rewrite bind_fst. case_bool_decide as Hr; simpl; [done|].
  intros [= <-]. simpl. repeat split. intros Hn. apply Hr. by rewrite Hn.
Qed.

Lemma elaborateStat_Some itemDef m stat index y :
  (elaborateStat kv itemDef m stat index).1 = Some y →
  (resolveStat kv itemDef stat).1 = Some y.
Proof. unfold elaborateStat. by repeat case_bool_decide. Qed.

Lemma elaborateStat_log itemDef m stat index e :
  e ∈ (elaborateStat kv itemDef m stat index).2 →
  e = WarnBipodWorkaround
  ∨ e = WarnUnknownStatEffect (hash itemDef) (name (displayProperties itemDef)).
Proof.
  unfold elaborateStat. repeat case_bool_decide;
    rewrite ?bind_snd, ?resolveStat_log; cbn [logLine snd app]; intros He.
  - by apply elem_of_nil in He.
  - right. by eapply getPlugInvestmentStatActivityRule_log.
  - apply elem_of_cons in He as [He|He]; [by left|].
    right. by eapply getPlugInvestmentStatActivityRule_log.
  - right. by eapply getPlugInvestmentStatActivityRule_log.
Qed.

(** [filterMap] keeps a subsequence of the stat types when the callback
    keeps the stat type of its argument. *)
Lemma filterMapFrom_types (fn : DestinyItemInvestmentStatDefinition → nat →
                                Logged (option DimPlugInvestmentStat)) index m :
  (∀ s i y, (fn s i).1 = Some y → plugStatTypeHash y = statTypeHash s) →
  plugStatTypeHash <$> (filterMapFrom index fn m).1 `sublist_of` statTypeHash <$> m.
Proof.
  intros Hfn. revert index. induction m as [|s m IH]; intros index; [done|].
  cbn [filterMapFrom]. rewrite !bind_fst. cbn [ret fst]. specialize (IH (S index)).
  destruct (fn s index).1 as [y|] eqn:Hy.
  - rewrite !fmap_cons, (Hfn _ _ _ Hy). by apply sublist_skip.
  - rewrite fmap_cons. by apply sublist_cons.
Qed.

Lemma filterMapFrom_log {A B} (fn : A → nat → Logged (option B)) index (l : list A) e :
  e ∈ (filterMapFrom index fn l).2 → ∃ x i, x ∈ l ∧ e ∈ (fn x i).2.
Proof.
  revert index. induction l as [|x l IH]; intros index; cbn [filterMapFrom].
  - by intros ?%elem_of_nil.
  - rewrite !bind_snd. cbn [ret snd]. rewrite app_nil_r, elem_of_app. intros [He|He].
    + exists x, index. split; [apply list_elem_of_here|done].
    + apply IH in He as (x' & i & Hx' & He). exists x', i.
      split; [by apply list_elem_of_further|done].
Qed.

Lemma filterMapFrom_fst_ext {A B} (fn g : A → nat → Logged (option B)) index (l : list A) :
  (∀ x i, (fn x i).1 = (g x i).1) →
  (filterMapFrom index fn l).1 = (filterMapFrom index g l).1.
Proof.
  intros Hfg. revert index. induction l as [|x l IH]; intros index; [done|].
  cbn [filterMapFrom]. rewrite !bind_fst. cbn [ret fst]. by rewrite Hfg, IH.
Qed.

Lemma bipodWarnings_app l1 l2 :
  bipodWarnings (l1 ++ l2) = bipodWarnings l1 + bipodWarnings l2.
Proof. unfold bipodWarnings. by rewrite filter_app, length_app. Qed.

Lemma bipodWarnings_resolveStat itemDef stat :
  bipodWarnings (resolveStat kv itemDef stat).2 = 0.
Proof.
  rewrite resolveStat_log. unfold bipodWarnings.
  destruct (filter _ _) as [|e l] eqn:Hf; [done|].
  assert (e ∈ filter (λ e, e = WarnBipodWorkaround)
                     (getPlugInvestmentStatActivityRule kv itemDef stat).2) as He.
  { rewrite Hf. apply list_elem_of_here. }
  apply list_elem_of_filter in He as [-> He].
  by apply getPlugInvestmentStatActivityRule_log in He.
Qed.

Lemma bipodWarnings_filterMapFrom {A B} (fn : A → nat → Logged (option B)) index
    (l : list A) (n : nat) :
  (∀ x i, bipodWarnings (fn x i).2 = n) →
  bipodWarnings (filterMapFrom index fn l).2 = n * length l.
Proof.
  intros Hfn. revert index. induction l as [|x l IH]; intros index; cbn [filterMapFrom].
  - unfold bipodWarnings. simpl. lia.
  - rewrite !bind_snd. cbn [ret snd]. rewrite app_nil_r, bipodWarnings_app, Hfn, IH.
    cbn [length]. lia.
Qed.

(** With the workaround in force, [filterMap] sees the first two entries
    only. *)
Lemma filterMapFrom_bipod itemDef m index l :
  hash itemDef = Bipod → length m = 4 →
  filterMapFrom index (elaborateStat kv itemDef m) l =
    filterMapFrom index (λ s _, resolveStat kv itemDef s) (take (2 - index) l).
Proof.
  intros Hb Hm. revert index. induction l as [|x l IH]; intros index.
  - by rewrite take_nil.
  - cbn [filterMapFrom]. rewrite IH. unfold elaborateStat at 1.
    rewrite !bool_decide_eq_true_2 by done. case_bool_decide as Hi.
    + replace (2 - index) with 0 by lia. replace (2 - S index) with 0 by lia.
      by rewrite !take_0.
    + replace (2 - index) with (S (2 - S index)) by lia. done.
Qed.

(** The rule depends on the stat through its type and its flag only. *)
Lemma getPlugInvestmentStatActivityRule_ext itemDef s s' :
  statTypeHash s = statTypeHash s' →
  isConditionallyActive s = isConditionallyActive s' →
  getPlugInvestmentStatActivityRule kv itemDef s
  = getPlugInvestmentStatActivityRule kv itemDef s'.
Proof. intros Hh Hc. unfold getPlugInvestmentStatActivityRule. by rewrite Hh, Hc. Qed.

Lemma filterMapFrom_elem {A B} (fn : A → nat → Logged (option B)) index (l : list A) y :
  y ∈ (filterMapFrom index fn l).1 → ∃ x i, x ∈ l ∧ (fn x i).1 = Some y.
Proof.
  revert index. induction l as [|x l IH]; intros index; cbn [filterMapFrom].
  - by intros ?%elem_of_nil.
  - rewrite !bind_fst. cbn [ret fst]. intros Hy.
    assert (Some y = (fn x index).1 ∨ y ∈ (filterMapFrom (S index) fn l).1) as [Hx|Hl].
    { destruct (fn x index).1; [|by right].
      apply elem_of_cons in Hy as [->|Hy]; [by left|by right]. }
    + exists x, index. split; [apply list_elem_of_here|done].
    + apply IH in Hl as (x' & i & Hx' & Hl). exists x', i.
      split; [by apply list_elem_of_further|done].
Qed.

(** Every returned stat carries the total of the raw values of its type. *)
Lemma mapAndFilterInvestmentStats_value itemDef y :
  y ∈ (mapAndFilterInvestmentStats kv itemDef).1 →
  plugValue y = totalValue (plugStatTypeHash y) (investmentStats itemDef).
Proof.
  rewrite mapAndFilterInvestmentStats_unfold. cbv zeta.
  rewrite getPlugInvestmentStats_mergedStats.
  assert (∀ x, x ∈ mergedStats (investmentStats itemDef) →
               value x = totalValue (statTypeHash x) (investmentStats itemDef)) as Hm.
  { intros x (x0 & -> & _)%list_elem_of_fmap. done. }
  destruct (fastPathCondition _ _ _).
  - cbn [ret fst]. intros (x & -> & Hx)%list_elem_of_fmap. by apply Hm.
  - intros (x & i & Hx & Hy)%filterMapFrom_elem.
    apply elaborateStat_Some, resolveStat_Some in Hy as (-> & -> & _). by apply Hm.
Qed.

(** C10: the stats returned for a definition have pairwise different stat
    types, on the fast path and after elaboration. *)
Theorem mapAndFilterInvestmentStats_NoDup itemDef :
  NoDup (plugStatTypeHash <$> (mapAndFilterInvestmentStats kv itemDef).1).
Proof.
  rewrite mapAndFilterInvestmentStats_unfold. cbv zeta.
  destruct (fastPathCondition _ _ _).
  - cbn [ret fst]. rewrite <-list_fmap_compose. apply NoDup_getPlugInvestmentStats.
  - refine (sublist_NoDup _ _ (NoDup_getPlugInvestmentStats _) _).
    apply filterMapFrom_types.
    intros s i y Hy%elaborateStat_Some%resolveStat_Some. tauto.
Qed.

(** The duplicate test never fires: the raw entries of one stat type are summed
    into the first of them by the merge, before any rule is resolved and
    whatever their flags; the duplicate test then looks at the merged list
    and finds nothing, so the result is the fast-path list or the output of
    the [filterMap], and the consolidation loops log nothing. *)
Lemma duplicates_merged_before_resolution itemDef :
  let merged := getPlugInvestmentStats (investmentStats itemDef) in
  merged = mergedStats (investmentStats itemDef)
  ∧ duplicatesFound merged = false
  ∧ mapAndFilterInvestmentStats kv itemDef =
      (if fastPathCondition kv itemDef merged then ret (asPlugStat <$> merged)
       else filterMap merged (elaborateStat kv itemDef merged))
  ∧ Forall (λ e, ¬ isConsolidationEntry e) (mapAndFilterInvestmentStats kv itemDef).2.
Proof.
  intros merged. split; [apply getPlugInvestmentStats_mergedStats|].
  split; [apply duplicatesFound_merged|]. split; [apply mapAndFilterInvestmentStats_unfold|].
  rewrite mapAndFilterInvestmentStats_unfold. cbv zeta. fold merged.
  destruct (fastPathCondition _ _ _); [constructor|].
  apply Forall_forall. intros e (x & i & _ & He)%filterMapFrom_log.
  apply elaborateStat_log in He as [-> | ->]; by intros [].
Qed.

(** C5, as the code has it: for Bipod the fast path comes first and returns
    every merged entry; past it, four merged entries lose the entries at
    indices 2 and 3 without a warning, and any other number of merged
    entries loses none to the workaround and logs the warning once per
    entry. *)
Theorem bipod_workaround itemDef :
  hash itemDef = Bipod →
  let merged := getPlugInvestmentStats (investmentStats itemDef) in
  (fastPathCondition kv itemDef merged = true →
     mapAndFilterInvestmentStats kv itemDef = ret (asPlugStat <$> merged))
  ∧ (fastPathCondition kv itemDef merged = false → length merged = 4 →
     mapAndFilterInvestmentStats kv itemDef
       = filterMap (take 2 merged) (λ s _, resolveStat kv itemDef s)
     ∧ bipodWarnings (mapAndFilterInvestmentStats kv itemDef).2 = 0)
  ∧ (fastPathCondition kv itemDef merged = false → length merged ≠ 4 →
     (mapAndFilterInvestmentStats kv itemDef).1
       = (filterMap merged (λ s _, resolveStat kv itemDef s)).1
     ∧ bipodWarnings (mapAndFilterInvestmentStats kv itemDef).2 = length merged).
Proof.
  intros Hb merged. rewrite mapAndFilterInvestmentStats_unfold. cbv zeta. fold merged.
  split; [by intros ->|]. split.
  - intros -> Hlen. unfold filterMap. rewrite filterMapFrom_bipod by done.
    split; [done|].
    rewrite (bipodWarnings_filterMapFrom _ _ _ 0); [lia|].
    intros. apply bipodWarnings_resolveStat.
  - intros -> Hlen. unfold filterMap. split.
    + apply filterMapFrom_fst_ext. intros x i. unfold elaborateStat.
      by rewrite bool_decide_eq_true_2, bool_decide_eq_false_2 by done.
    + rewrite (bipodWarnings_filterMapFrom _ _ _ 1); [lia|].
      intros x i. unfold elaborateStat.
      rewrite bool_decide_eq_true_2, bool_decide_eq_false_2 by done.
      rewrite bind_snd, bipodWarnings_app, bipodWarnings_resolveStat. done.
Qed.

(** C4, as the code has it: the merge sums the raw entries of each stat
    type into the first of them and keeps the order of first occurrence, and
    every stat in the result of the elaboration carries the total of its
    type. For two raw entries of one stat type with the values 5 and -3 the merged
    list is one entry with the value 2, and that entry is the whole result
    of the elaboration unless its rule is never-active, in which case the
    result is empty. *)
Theorem merge_sums_same_stat_type itemDef :
  getPlugInvestmentStats (investmentStats itemDef) = mergedStats (investmentStats itemDef)
  ∧ (∀ y, y ∈ (mapAndFilterInvestmentStats kv itemDef).1 →
          plugValue y = totalValue (plugStatTypeHash y) (investmentStats itemDef))
  ∧ ∀ a b,
      investmentStats itemDef = [a; b] →
      statTypeHash a = statTypeHash b → value a = 5%Z → value b = (-3)%Z →
      getPlugInvestmentStats (investmentStats itemDef)
        = [{| statTypeHash := statTypeHash a; value := 2;
              isConditionallyActive := isConditionallyActive a |}]
      ∧ (mapAndFilterInvestmentStats kv itemDef).1 =
          let rule := (getPlugInvestmentStatActivityRule kv itemDef a).1 in
          if bool_decide (rule = Some RuleNever) then []
          else [{| activityRule := rule; plugStatTypeHash := statTypeHash a; plugValue := 2 |}].
Proof.
  split; [apply getPlugInvestmentStats_mergedStats|].
  split; [apply mapAndFilterInvestmentStats_value|].
  intros a b Hraw Hh Ha Hb.
  assert (getPlugInvestmentStats (investmentStats itemDef)
          = [{| statTypeHash := statTypeHash a; value := 2;
                isConditionallyActive := isConditionallyActive a |}]) as Hm.
  { rewrite Hraw. unfold getPlugInvestmentStats. cbn [foldl].
    rewrite addInvestmentStat_nil, addInvestmentStat_cons, decide_True by done.
    unfold bump. by rewrite Ha, Hb. }
  split; [done|].
  set (merged := {| statTypeHash := statTypeHash a; value := 2;
                    isConditionallyActive := isConditionallyActive a |}) in *.
  assert (getPlugInvestmentStatActivityRule kv itemDef merged
          = getPlugInvestmentStatActivityRule kv itemDef a) as Hrule.
  { by apply getPlugInvestmentStatActivityRule_ext. }
  assert ((resolveStat kv itemDef merged).1 =
          let rule := (getPlugInvestmentStatActivityRule kv itemDef a).1 in
          if bool_decide (rule = Some RuleNever) then None
          else Some {| activityRule := rule; plugStatTypeHash := statTypeHash a;
                       plugValue := 2 |}) as Hres.
  { unfold resolveStat. rewrite bind_fst, Hrule. cbv zeta.
    destruct (getPlugInvestmentStatActivityRule kv itemDef a).1 as [[]|]; done. }
  rewrite mapAndFilterInvestmentStats_unfold. cbv zeta. rewrite Hm.
  destruct (fastPathCondition kv itemDef [merged]) eqn:Hfast.
  - unfold fastPathCondition in Hfast. simpl in Hfast.
    apply andb_true_iff in Hfast as [Hcat Hflag].
    rewrite andb_true_r in Hflag. apply negb_true_iff in Hcat, Hflag.
    unfold getPlugInvestmentStatActivityRule. rewrite Hcat, Hflag. done.
  - unfold filterMap. cbn [filterMapFrom]. rewrite !bind_fst. cbn [ret fst].
    assert ((elaborateStat kv itemDef [merged] merged 0).1
            = (resolveStat kv itemDef merged).1) as ->.
    { unfold elaborateStat. by repeat case_bool_decide. }
    rewrite Hres. cbv zeta. by case_bool_decide.
Qed.

End ElaborationProperties.

(** * Properties of the plug descriptions *)

Section DescriptionProperties.

Variable kv : KnownValues.

Implicit Types (plug : DestinyInventoryItemDefinition) (defs : D2ManifestDefinitions).
Implicit Types (st : DescState) (usedStrings used : gset string).

Lemma orUndefined_Some s t : orUndefined s = Some t ↔ t = s ∧ s ≠ "".
Proof. unfold orUndefined. case_bool_decide; naive_solver. Qed.

Lemma orUndefined_nonempty s : s ≠ "" → orUndefined s = Some s.
Proof. intros. by apply orUndefined_Some. Qed.

Lemma includes_opt_hasCatalystTrait plug :
  includes_opt (traitHashes plug) (EXOTIC_CATALYST_TRAIT kv) = true ↔ hasCatalystTrait kv plug.
Proof.
  unfold hasCatalystTrait. destruct (traitHashes plug) as [traits|]; simpl.
  - rewrite includes_true. split; [eauto|]. by intros (? & [= <-] & ?).
  - split; [done|]. by intros (? & ? & ?).
Qed.

Lemma includes_opt_isArmorMod plug :
  includes_opt (itemCategoryHashes plug) (ArmorMods kv) = true ↔ isArmorMod kv plug.
Proof.
  unfold isArmorMod. destruct (itemCategoryHashes plug) as [categories|]; simpl.
  - rewrite includes_true. split; [eauto|]. by intros (? & [= <-] & ?).
  - split; [done|]. by intros (? & ? & ?).
Qed.

(** ** The empty string is never recorded as used *)

Lemma useOnce_nonempty (o : option string) used :
  "" ∉ used → o ≠ Some "" → "" ∉ (useOnce o used).2.
Proof.
  intros Hu Ho. unfold useOnce. destruct o as [t|]; [|done].
  case_bool_decide; [done|]. simpl. set_solver.
Qed.

Lemma orUndefined_not_empty s : orUndefined s ≠ Some "".
Proof. intros [-> ?]%orUndefined_Some. done. Qed.

Lemma addPerkDescription_nonempty plug defs st perk st' :
  addPerkDescription plug defs st perk = Some st' → "" ∉ st.2 → "" ∉ st'.2.
Proof.
  unfold addPerkDescription. case_bool_decide; [by intros [= <-]|].
  destruct (SandboxPerk defs !! perkHash perk) as [sandboxPerk|]; [|done]. simpl.
  intros Hst Hu.
  assert ("" ∉ (useOnce (orUndefined (requirementDisplayString perk))
                  (useOnce (orUndefined (description (sandboxDisplayProperties sandboxPerk)))
                     st.2).2).2) as Hr.
  { auto using useOnce_nonempty, orUndefined_not_empty. }
  by destruct (_ || _); injection Hst as <-.
Qed.

Lemma forEachPerk_nonempty plug defs perks st st' :
  forEachPerk plug defs perks st = Some st' → "" ∉ st.2 → "" ∉ st'.2.
Proof.
  revert st. induction perks as [|perk perks IH]; intros st; simpl; [by intros [= <-]|].
  destruct (addPerkDescription plug defs st perk) as [st1|] eqn:H1; [|done]. simpl.
  eauto using addPerkDescription_nonempty.
Qed.

Lemma addPerkDescriptions_nonempty plug defs st st' :
  addPerkDescriptions kv plug defs st = Some st' → "" ∉ st.2 → "" ∉ st'.2.
Proof.
  unfold addPerkDescriptions. intros (perks & _ & H)%bind_Some.
  eauto using forEachPerk_nonempty.
Qed.

Lemma addDescriptionAsRequirement_nonempty s st :
  "" ∉ st.2 → "" ∉ (addDescriptionAsRequirement (orUndefined s) st).2.
Proof.
  intros Hu. unfold addDescriptionAsRequirement.
  destruct (orUndefined s) as [d|] eqn:Hd; [|done].
  apply orUndefined_Some in Hd as [-> ?]. case_bool_decide; [done|]. simpl. set_solver.
Qed.

Lemma addDescriptionAsFunctionality_nonempty s st :
  "" ∉ st.2 → "" ∉ (addDescriptionAsFunctionality (orUndefined s) st).2.
Proof.
  intros Hu. unfold addDescriptionAsFunctionality.
  destruct (orUndefined s) as [d|] eqn:Hd; [|done].
  apply orUndefined_Some in Hd as [-> ?]. case_bool_decide; [done|]. simpl. set_solver.
Qed.

Lemma keepFirstPerk_nonempty plug defs st st' :
  keepFirstPerk plug defs st = Some st' → "" ∉ st.2 → "" ∉ st'.2.
Proof.
  unfold keepFirstPerk. destruct st.1; [|by intros [= <-]].
  destruct (perks plug) as [|firstPerk ?]; [by intros [= <-]|].
  destruct (SandboxPerk defs !! perkHash firstPerk) as [sandboxPerk|]; [|done]. simpl.
  intros Hst Hu.
  assert ("" ∉ (useOnce (orUndefined (requirementDisplayString firstPerk))
                  (useOnce (orUndefined (description (sandboxDisplayProperties sandboxPerk)))
                     st.2).2).2) as Hr.
  { auto using useOnce_nonempty, orUndefined_not_empty. }
  by destruct (_ || _); injection Hst as <-.
Qed.

Lemma getPerkDescriptions_nonempty plug defs perks used :
  getPerkDescriptions kv plug defs = Some (perks, used) → "" ∉ used.
Proof.
  unfold getPerkDescriptions. intros (st & Hst & Hk)%bind_Some.
  apply keepFirstPerk_nonempty in Hk; [done|]. clear Hk.
  assert ("" ∉ (([], ∅) : DescState).2) as H0 by set_solver.
  destruct (includes_opt (traitHashes plug) _).
  { apply bind_Some in Hst as (st0 & Hst0 & [= <-]).
    eauto using addPerkDescriptions_nonempty, addDescriptionAsRequirement_nonempty. }
  destruct (includes_opt (itemCategoryHashes plug) _).
  { apply bind_Some in Hst as (st0 & Hst0 & Hst).
    case_bool_decide; injection Hst as <-;
      eauto using addPerkDescriptions_nonempty, addDescriptionAsRequirement_nonempty,
        addDescriptionAsFunctionality_nonempty. }
  destruct (orUndefined (description (displayProperties plug))) eqn:Hd.
  - rewrite <-Hd in Hst. injection Hst as <-.
    by apply addDescriptionAsFunctionality_nonempty.
  - eauto using addPerkDescriptions_nonempty.
Qed.

(** ** Stripping *)

Lemma keepContent_spec used content :
  "" ∉ used → keepContent used content = true ↔ ¬ textUsed used content.
Proof.
  intros Hu. unfold keepContent, textUsed. destruct (text content) as [t|]; simpl; [|naive_solver].
  unfold orUndefined. case_bool_decide as Ht.
  - subst t. naive_solver.
  - by rewrite negb_true_iff, bool_decide_eq_false.
Qed.

Lemma filter_keepContent used (contents : list LinesContent) :
  "" ∉ used →
  List.filter (keepContent used) contents = filter (λ c, ¬ textUsed used c) contents.
Proof.
  intros Hu. induction contents as [|c contents IH]; [done|].
  rewrite filter_cons. simpl. rewrite IH.
  destruct (keepContent used c) eqn:Hk.
  - rewrite decide_True; [done|]. by apply keepContent_spec.
  - rewrite decide_False; [done|]. rewrite <-keepContent_spec by done. congruence.
Qed.

Lemma stripLine_withoutUsedText used line :
  "" ∉ used → stripLine used line = withoutUsedText used line.
Proof.
  intros Hu. unfold stripLine, withoutUsedText.
  destruct line as [[contents|] classNames]; simpl; [|done].
  by rewrite filter_keepContent.
Qed.

Lemma filter_not_nil {A} (P : A → Prop) `{!∀ x, Decision (P x)} (l : list A) :
  filter (λ x, ¬ P x) l = [] ↔ Forall P l.
Proof.
  induction l as [|x l IH]; [by split; [constructor|]|].
  rewrite filter_cons, Forall_cons. destruct (decide (P x)) as [HP|HP].
  - rewrite decide_False by tauto. tauto.
  - rewrite decide_True by tauto. split; [done|tauto].
Qed.

Lemma hasLineText_withoutUsedText used line :
  hasLineText (withoutUsedText used line) = false ↔
  ∀ contents, lineText line = Some contents → Forall (textUsed used) contents.
Proof.
  unfold hasLineText, withoutUsedText. simpl.
  destruct (lineText line) as [contents|]; simpl; [|naive_solver].
  pose proof (filter_not_nil (textUsed used) contents) as Hf.
  destruct (filter _ contents) as [|c rest].
  - split; [|done]. intros _ ? [= <-]. by apply Hf.
  - split; [done|]. intros H. specialize (H contents eq_refl).
    by apply Hf in H.
Qed.

Lemma existsb_hasLineText used (lines : list Line) :
  existsb hasLineText (withoutUsedText used <$> lines) = false ↔
  Forall (λ line, ∀ contents, lineText line = Some contents →
                              Forall (textUsed used) contents) lines.
Proof.
  induction lines as [|line lines IH]; [by split; [constructor|]|].
  rewrite fmap_cons, Forall_cons. cbn [existsb].
  rewrite orb_false_iff, IH, hasLineText_withoutUsedText. done.
Qed.

(** [stripUsedStrings] for a set of used strings without the empty string. *)
Lemma stripUsedStrings_unfold used communityInsight :
  "" ∉ used →
  stripUsedStrings communityInsight used =
    match simpleDescription communityInsight with
    | None => None
    | Some lines =>
        if existsb hasLineText (withoutUsedText used <$> lines)
        then Some {| clarityHash := clarityHash communityInsight;
                     statOnly := statOnly communityInsight;
                     simpleDescription := Some (withoutUsedText used <$> lines) |}
        else None
    end.
Proof.
  intros Hu. unfold stripUsedStrings. destruct (simpleDescription _) as [lines|]; [|done].
  assert (stripLine used <$> lines = withoutUsedText used <$> lines) as ->.
  { apply list_fmap_ext. intros. by apply stripLine_withoutUsedText. }
  by destruct (existsb _ _).
Qed.

(** ** The composer *)

(** The composer returns a result whenever the perk descriptions can be
    computed, that is, when the manifest lookups succeed. *)
Lemma usePlugDescriptions_Some clarityDescriptions defs allClarityDescriptions
    descriptionsToDisplay plug perks used :
  getPerkDescriptions kv plug defs = Some (perks, used) →
  ∃ r, usePlugDescriptions kv clarityDescriptions (Some defs) allClarityDescriptions
         descriptionsToDisplay (Some plug) = Some r
       ∧ resultPerks r =
           (if negb clarityDescriptions
               || negb (bool_decide (descriptionsToDisplay = community))
               || (clarityDescriptions && bool_decide (descriptionsToDisplay = community)
                   && negb (bool_decide (is_Some (communityInsight r))))
            then perks else [])
       ∧ communityInsight r =
           (if clarityDescriptions && negb (bool_decide (descriptionsToDisplay = bungie)) then
              clarityPerk ← allClarityDescriptions ≫= (.!! hash plug);
              if negb (statOnly clarityPerk) then
                stripped ← stripUsedStrings clarityPerk used;
                Some (if negb clarityDescriptions
                         || negb (bool_decide (descriptionsToDisplay = community))
                      then stripped else clarityPerk)
              else None
            else None).
Proof.
  intros Hperks. unfold usePlugDescriptions. rewrite Hperks. simpl.
  eexists. split; [done|]. simpl. split; [done|].
  destruct (_ && _); [|done].
  destruct (allClarityDescriptions ≫= _) as [clarityPerk|]; [|done]. simpl.
  destruct (negb (statOnly clarityPerk)); [|done].
  by destruct (stripUsedStrings clarityPerk used).
Qed.

(** The community description is stripped of every line content whose
    text is one of the strings the official descriptions of the plug use;
    when every content of every line is such a repetition (or the community
    description has no lines at all) nothing is left of it, and the composed
    result then has no community description; otherwise, when both sources
    are shown, the composed result carries the stripped description. *)
Lemma community_text_stripping plug defs perks used clarityPerk :
  getPerkDescriptions kv plug defs = Some (perks, used) →
  (∀ stripped, stripUsedStrings clarityPerk used = Some stripped →
     ∃ lines, simpleDescription clarityPerk = Some lines
       ∧ simpleDescription stripped = Some (withoutUsedText used <$> lines))
  ∧ (stripUsedStrings clarityPerk used = None ↔
       ∀ lines, simpleDescription clarityPerk = Some lines →
         Forall (λ line, ∀ contents, lineText line = Some contents →
                                     Forall (textUsed used) contents) lines)
  ∧ (∀ clarityDescriptions allClarityDescriptions descriptionsToDisplay,
       allClarityDescriptions ≫= (.!! hash plug) = Some clarityPerk →
       stripUsedStrings clarityPerk used = None →
       ∃ r, usePlugDescriptions kv clarityDescriptions (Some defs) allClarityDescriptions
              descriptionsToDisplay (Some plug) = Some r
            ∧ communityInsight r = None)
  ∧ (∀ allClarityDescriptions stripped,
       allClarityDescriptions ≫= (.!! hash plug) = Some clarityPerk →
       statOnly clarityPerk = false →
       stripUsedStrings clarityPerk used = Some stripped →
       ∃ r, usePlugDescriptions kv true (Some defs) allClarityDescriptions
              both (Some plug) = Some r
            ∧ communityInsight r = Some stripped).
Proof.
  intros Hperks. pose proof (getPerkDescriptions_nonempty _ _ _ _ Hperks) as Hu.
  split; [|split; [|split]].
  - intros stripped. rewrite stripUsedStrings_unfold by done.
    destruct (simpleDescription clarityPerk) as [lines|]; [|done].
    destruct (existsb _ _); [|done]. intros [= <-]. eauto.
  - rewrite stripUsedStrings_unfold by done.
    destruct (simpleDescription clarityPerk) as [lines|]; [|naive_solver].
    destruct (existsb _ _) eqn:He.
    + split; [done|]. intros H. specialize (H lines eq_refl).
      apply existsb_hasLineText in H. congruence.
    + split; [|done]. intros _ ? [= <-]. by apply existsb_hasLineText.
  - intros flag table d Htable Hstrip.
    destruct (usePlugDescriptions_Some flag defs table d plug perks used Hperks)
      as (r & Hr & _ & Hci).
    exists r. split; [done|]. rewrite Hci, Htable. simpl. rewrite Hstrip.
    by repeat case_match.
  - intros table stripped Htable Hstat Hstrip.
    destruct (usePlugDescriptions_Some true defs table both plug perks used Hperks)
      as (r & Hr & _ & Hci).
    exists r. split; [done|]. rewrite Hci, Htable. simpl. by rewrite Hstat, Hstrip.
Qed.

(** With the community-only setting, when no community description of
    the plug survives (the feature is off, the table has none, it is
    stat-only, or stripping leaves nothing), the composer returns the
    official perk descriptions and no community description. *)
Lemma community_only_falls_back clarityDescriptions defs allClarityDescriptions
    plug perks used :
  getPerkDescriptions kv plug defs = Some (perks, used) →
  ¬ communityTextSurvives clarityDescriptions allClarityDescriptions plug used →
  ∃ r, usePlugDescriptions kv clarityDescriptions (Some defs) allClarityDescriptions
         community (Some plug) = Some r
       ∧ communityInsight r = None
       ∧ resultPerks r = perks.
Proof.
  intros Hperks Hnone.
  destruct (usePlugDescriptions_Some clarityDescriptions defs allClarityDescriptions
              community plug perks used Hperks) as (r & Hr & Hp & Hci).
  exists r. split; [done|].
  assert (communityInsight r = None) as Hnoci.
  { rewrite Hci. destruct clarityDescriptions; [|done]. simpl.
    destruct (allClarityDescriptions ≫= _) as [clarityPerk|] eqn:Htable; [|done]. simpl.
    destruct (statOnly clarityPerk) eqn:Hstat; [done|]. simpl.
    destruct (stripUsedStrings clarityPerk used) as [stripped|] eqn:Hstrip; [|done].
    exfalso. apply Hnone. split; [done|]. exists clarityPerk.
    split; [done|]. split; [done|]. rewrite Hstrip. by eexists. }
  split; [done|]. rewrite Hp, Hnoci.
  by destruct clarityDescriptions.
Qed.

(** C9, as the code has it: an armor mod that has no perks and a non-empty
    description, does not carry the catalyst trait and is not Echo of
    Persistence, gets exactly one perk description: perk hash 0, no name,
    the description of the mod as its description and no requirement. The
    composer returns it whenever the official descriptions are shown. *)
Theorem armor_mod_description plug defs :
  isArmorMod kv plug →
  ¬ hasCatalystTrait kv plug →
  hash plug ≠ echoOfPersistence kv →
  perks plug = [] →
  description (displayProperties plug) ≠ "" →
  let entry := {| descPerkHash := 0; descName := None;
                  descDescription := Some (description (displayProperties plug));
                  descRequirement := None |} in
  getPerkDescriptions kv plug defs
    = Some ([entry], {[ description (displayProperties plug) ]})
  ∧ ∀ clarityDescriptions allClarityDescriptions descriptionsToDisplay,
      ∃ r, usePlugDescriptions kv clarityDescriptions (Some defs) allClarityDescriptions
             descriptionsToDisplay (Some plug) = Some r
           ∧ (clarityDescriptions = false ∨ descriptionsToDisplay ≠ community
              ∨ communityInsight r = None → resultPerks r = [entry]).
Proof.
  intros Harmor%includes_opt_isArmorMod Hcat Hecho Hperks Hdesc entry.
  assert (includes_opt (traitHashes plug) (EXOTIC_CATALYST_TRAIT kv) = false) as Hcat'.
  { rewrite <-includes_opt_hasCatalystTrait in Hcat. by apply not_true_is_false. }
  assert (getPerkDescriptions kv plug defs
          = Some ([entry], {[ description (displayProperties plug) ]})) as Hget.
  { unfold getPerkDescriptions, addPerkDescriptions, keepFirstPerk.
    rewrite Hcat', Harmor, bool_decide_eq_false_2, Hperks by done. simpl.
    rewrite orUndefined_nonempty by done. simpl.
    rewrite bool_decide_eq_false_2 by set_solver. simpl.
    by rewrite (left_id_L ∅ (∪)). }
  split; [done|]. intros flag table d.
  destruct (usePlugDescriptions_Some flag defs table d plug _ _ Hget) as (r & Hr & Hp & _).
  exists r. split; [done|]. rewrite Hp. intros [-> | [Hd | ->]].
  - done.
  - by rewrite (bool_decide_eq_false_2 _ Hd), orb_true_r.
  - destruct flag, (bool_decide (d = community)); done.
Qed.

End DescriptionProperties.

(** * The properties at the example inputs *)

(** C4 fails on [capacitorTwoStats]: the two raw entries of stat type 1,
    with the values 5 and -3, leave no entry at all, because the merged
    entry is never active. *)
Lemma never_active_merge_counterexample :
  investmentStats capacitorTwoStats = [mkStat 1 5 true; mkStat 1 (-3) true]
  ∧ getPlugInvestmentStats (investmentStats capacitorTwoStats) = [mkStat 1 2 true]
  ∧ (mapAndFilterInvestmentStats sampleValues capacitorTwoStats).1 = [].
Proof. split; [reflexivity|]. split; vm_compute; reflexivity. Qed.

(** C4 as the code has it, at [plainTwoStats]. *)
Lemma merge_sums_same_stat_type_witness :
  getPlugInvestmentStats (investmentStats plainTwoStats) = [mkStat 1 2 false]
  ∧ (mapAndFilterInvestmentStats sampleValues plainTwoStats).1
    = [{| activityRule := None; plugStatTypeHash := 1; plugValue := 2 |}].
Proof.
  exact (proj2 (proj2 (merge_sums_same_stat_type sampleValues plainTwoStats))
           (mkStat 1 5 false) (mkStat 1 (-3) false) eq_refl eq_refl eq_refl eq_refl).
Defined.

(** C5 fails on [bipodUnconditional]: the merged list has four entries and
    all four are returned, because the fast path comes first. *)
Lemma bipod_fast_path_counterexample :
  hash bipodUnconditional = Bipod
  ∧ length (getPlugInvestmentStats (investmentStats bipodUnconditional)) = 4
  ∧ mapAndFilterInvestmentStats sampleValues bipodUnconditional
    = ([{| activityRule := None; plugStatTypeHash := 1; plugValue := -25 |};
        {| activityRule := None; plugStatTypeHash := 2; plugValue := -15 |};
        {| activityRule := None; plugStatTypeHash := 3; plugValue := -30 |};
        {| activityRule := None; plugStatTypeHash := 4; plugValue := -20 |}], []).
Proof. split; [reflexivity|]. split; vm_compute; reflexivity. Qed.

(** C5 as the code has it, at [bipodFourTypes]: the entries at indices 2
    and 3 are gone. *)
Lemma bipod_workaround_witness :
  mapAndFilterInvestmentStats sampleValues bipodFourTypes
  = filterMap (take 2 (getPlugInvestmentStats (investmentStats bipodFourTypes)))
      (λ s _, resolveStat sampleValues bipodFourTypes s)
  ∧ bipodWarnings (mapAndFilterInvestmentStats sampleValues bipodFourTypes).2 = 0.
Proof.
  exact (proj1 (proj2 (bipod_workaround sampleValues bipodFourTypes eq_refl))
           eq_refl eq_refl).
Defined.

(** The stats named in the comment of the Bipod workaround have two stat
    types only: the merge leaves two entries, so the workaround does not
    apply to them; the warning is logged for each entry and the values of
    the base perk stay in the sums. *)
Lemma bipod_documented_stats :
  mapAndFilterInvestmentStats sampleValues bipodAsDocumented
  = ([{| activityRule := None; plugStatTypeHash := 1; plugValue := -55 |};
      {| activityRule := None; plugStatTypeHash := 2; plugValue := -35 |}],
     [WarnBipodWorkaround; WarnBipodWorkaround]).
Proof. vm_compute. reflexivity. Qed.

(** C9 fails on an armor mod that carries the catalyst trait: its
    description becomes the requirement of the entry. *)
Lemma catalyst_armor_mod_counterexample :
  isArmorMod sampleValues (armorModDef (Some [EXOTIC_CATALYST_TRAIT sampleValues]))
  ∧ perks (armorModDef (Some [EXOTIC_CATALYST_TRAIT sampleValues])) = []
  ∧ description (displayProperties (armorModDef (Some [EXOTIC_CATALYST_TRAIT sampleValues])))
    = "Deals fire damage"
  ∧ fst <$> getPerkDescriptions sampleValues
              (armorModDef (Some [EXOTIC_CATALYST_TRAIT sampleValues])) emptyDefs
    = Some [{| descPerkHash := 0; descName := None; descDescription := None;
               descRequirement := Some "Deals fire damage" |}].
Proof.
  split.
  { exists [ArmorMods sampleValues]. split; [reflexivity|]. apply list_elem_of_here. }
  split; [reflexivity|]. split; [reflexivity|]. vm_compute. reflexivity.
Qed.

(** C9 as the code has it, at [armorModDef] without traits. *)
Lemma armor_mod_description_witness :
  getPerkDescriptions sampleValues (armorModDef None) emptyDefs
  = Some ([{| descPerkHash := 0; descName := None;
              descDescription := Some "Deals fire damage"; descRequirement := None |}],
          {[ "Deals fire damage" ]}).
Proof.
  refine (proj1 (armor_mod_description sampleValues (armorModDef None) emptyDefs _ _ _ _ _)).
  - exists [ArmorMods sampleValues]. split; [reflexivity|]. apply list_elem_of_here.
  - intros (traits & Htraits & _). discriminate Htraits.
  - vm_compute. discriminate.
  - reflexivity.
  - vm_compute. discriminate.
Defined.

(** * Further properties of the stat activity rules *)

Section RuleLadder.

Variable kv : KnownValues.

Implicit Types (itemDef : DestinyInventoryItemDefinition).
Implicit Types (stat : DestinyItemInvestmentStatDefinition).

Lemma not_capacitor_false itemDef :
  ¬ isElementalCapacitor kv itemDef →
  bool_decide (hash itemDef = ElementalCapacitor kv)
  || bool_decide (hash itemDef = EnhancedElementalCapacitor kv) = false.
Proof.
  intros Hn. apply not_true_is_false. rewrite orb_true_iff, !bool_decide_eq_true. exact Hn.
Qed.

Lemma not_classAbility_false itemDef :
  ¬ isClassAbilityMod kv itemDef →
  bool_decide (hash itemDef = EchoOfPersistence kv)
  || bool_decide (hash itemDef = SparkOfFocus kv) = false.
Proof.
  intros Hn. apply not_true_is_false. rewrite orb_true_iff, !bool_decide_eq_true. exact Hn.
Qed.

(** X1: a stat whose conditional flag is unset, on a definition without
    the catalyst trait, has no rule, and is active for every item and class
    type without anything being logged. *)
Theorem unconditional_stat_always_active itemDef stat item classType :
  ¬ isExoticCatalyst kv itemDef →
  isConditionallyActive stat = false →
  getPlugInvestmentStatActivityRule kv itemDef stat = (None, [])
  ∧ isPlugStatActive kv (getPlugInvestmentStatActivityRule kv itemDef stat).1 item classType
    = (true, []).
Proof.
  intros Hcat%includes_opt_not_catalyst Hflag.
  unfold getPlugInvestmentStatActivityRule. by rewrite Hcat, Hflag.
Qed.

(** X2: a conditional stat of a weapon enhancer preview plug is never
    active, whatever the hash of the plug. *)
Theorem enhancer_preview_never itemDef stat :
  ¬ isExoticCatalyst kv itemDef →
  isConditionallyActive stat = true →
  isEnhancerPreview kv itemDef →
  getPlugInvestmentStatActivityRule kv itemDef stat = (Some RuleNever, []).
Proof.
  intros Hcat%includes_opt_not_catalyst Hflag Hprev.
  unfold getPlugInvestmentStatActivityRule. rewrite Hcat, Hflag. simpl.
  by rewrite bool_decide_eq_true_2.
Qed.

(** X3: for the two class ability mods, a conditional stat is gated by the
    class whose ability the stat governs: mobility by hunter, resilience by
    titan, recovery by warlock, tested in this order; any other stat is
    always active and is reported in the log. *)
Theorem class_ability_mod_rule itemDef stat :
  ¬ isExoticCatalyst kv itemDef →
  isConditionallyActive stat = true →
  ¬ isEnhancerPreview kv itemDef →
  ¬ isElementalCapacitor kv itemDef →
  isClassAbilityMod kv itemDef →
  getPlugInvestmentStatActivityRule kv itemDef stat =
    if decide (statTypeHash stat = Mobility kv) then (Some (RuleClassType Hunter), [])
    else if decide (statTypeHash stat = Resilience kv) then (Some (RuleClassType Titan), [])
    else if decide (statTypeHash stat = Recovery kv) then (Some (RuleClassType Warlock), [])
    else (None, [WarnUnknownStatEffect (hash itemDef) (name (displayProperties itemDef))]).
Proof.
  intros Hcat%includes_opt_not_catalyst Hflag Hprev Hcap%not_capacitor_false Hmod.
  unfold getPlugInvestmentStatActivityRule. rewrite Hcat, Hflag. simpl.
  rewrite bool_decide_eq_false_2, Hcap by done.
  assert (bool_decide (hash itemDef = EchoOfPersistence kv)
          || bool_decide (hash itemDef = SparkOfFocus kv) = true) as ->.
  { apply orb_true_iff. by rewrite !bool_decide_eq_true. }
  repeat case_bool_decide; repeat case_decide; first [reflexivity | congruence | set_solver].
Qed.

(** X4: past the special cases, a conditional stat is gated by the tables:
    a hash of the masterwork table gives the adept weapon rule, also when
    the hash is an enhanced intrinsic as well; an enhanced intrinsic gives
    its own rule; any other plug has no rule. Nothing is logged. *)
Theorem table_rules itemDef stat :
  ¬ isExoticCatalyst kv itemDef →
  isConditionallyActive stat = true →
  ¬ isEnhancerPreview kv itemDef →
  ¬ isElementalCapacitor kv itemDef →
  ¬ isClassAbilityMod kv itemDef →
  getPlugInvestmentStatActivityRule kv itemDef stat =
    (if decide (hash itemDef ∈ masterworksWithCondStats kv) then Some RuleAdeptWeapon
     else if decide (hash itemDef ∈ enhancedIntrinsics kv) then Some RuleEnhancedIntrinsic
     else None, []).
Proof.
  intros Hcat%includes_opt_not_catalyst Hflag Hprev Hcap%not_capacitor_false
    Hmod%not_classAbility_false.
  unfold getPlugInvestmentStatActivityRule. rewrite Hcat, Hflag. simpl.
  rewrite bool_decide_eq_false_2, Hcap, Hmod by done. unfold includes.
  repeat case_bool_decide; repeat case_decide; first [reflexivity | congruence | set_solver].
Qed.

(** X5: the resolver logs at most one line, and only for a conditional
    stat of a class ability mod whose stat type is none of mobility,
    resilience and recovery; it then answers that the stat has no rule. *)
Theorem rule_log_unknown_stat itemDef stat :
  (getPlugInvestmentStatActivityRule kv itemDef stat).2 = []
  ∨ ((getPlugInvestmentStatActivityRule kv itemDef stat).2
       = [WarnUnknownStatEffect (hash itemDef) (name (displayProperties itemDef))]
     ∧ (getPlugInvestmentStatActivityRule kv itemDef stat).1 = None
     ∧ isClassAbilityMod kv itemDef
     ∧ isConditionallyActive stat = true
     ∧ statTypeHash stat ≠ Mobility kv
     ∧ statTypeHash stat ≠ Resilience kv
     ∧ statTypeHash stat ≠ Recovery kv).
Proof.
  unfold getPlugInvestmentStatActivityRule, isClassAbilityMod.
  destruct (includes_opt _ _); [by left|].
  destruct (isConditionallyActive stat); [|by left]. simpl.
  case_bool_decide; [by left|].
  destruct (_ || _); [by left|].
  destruct (bool_decide (hash itemDef = EchoOfPersistence kv)
            || bool_decide (hash itemDef = SparkOfFocus kv)) eqn:Hmod.
  - apply orb_true_iff in Hmod. rewrite !bool_decide_eq_true in Hmod.
    repeat case_bool_decide; simpl; try (by left). right. done.
  - repeat case_match; by left.
Qed.

(** X6: a class-gated rule only comes from a class ability mod, and names
    the class of the stat: it is never the unknown class. *)
Theorem class_rule_origin itemDef stat c :
  (getPlugInvestmentStatActivityRule kv itemDef stat).1 = Some (RuleClassType c) →
  isClassAbilityMod kv itemDef
  ∧ ((c = Hunter ∧ statTypeHash stat = Mobility kv)
     ∨ (c = Titan ∧ statTypeHash stat = Resilience kv)
     ∨ (c = Warlock ∧ statTypeHash stat = Recovery kv)).
Proof.
  unfold getPlugInvestmentStatActivityRule, isClassAbilityMod.
  destruct (includes_opt _ _); [done|].
  destruct (negb _); [done|].
  case_bool_decide; [done|].
  destruct (_ || _); [done|].
  destruct (bool_decide (hash itemDef = EchoOfPersistence kv)
            || bool_decide (hash itemDef = SparkOfFocus kv)) eqn:Hmod.
  - apply orb_true_iff in Hmod. rewrite !bool_decide_eq_true in Hmod.
    repeat case_bool_decide; simpl; intros [= <-]; naive_solver.
  - by repeat case_match.
Qed.

(** ** Evaluating a rule *)

(** X7: with an item at hand nothing is logged, whatever the rule and the
    class type; without an item and without a class type, the never-active
    rule is the only one that is not satisfied. *)
Theorem rule_evaluation_context rule :
  (∀ item classType, (isPlugStatActive kv rule (Some item) classType).2 = [])
  ∧ ((isPlugStatActive kv rule None None).1 = false ↔ rule = Some RuleNever).
Proof.
  split.
  - intros item classType. destruct rule as [[]|], classType; done.
  - destruct rule as [[]|]; simpl; naive_solver.
Qed.

(** X8: an item that satisfies the adept weapon rule satisfies the enhanced
    intrinsic rule too; an item that is no adept weapon satisfies the
    enhanced intrinsic rule exactly when its crafted level is at least 20,
    an item without crafting information or without a level counting as
    level 0. *)
Theorem enhanced_intrinsic_active item classType :
  ((isPlugStatActive kv (Some RuleAdeptWeapon) (Some item) classType).1 = true →
   (isPlugStatActive kv (Some RuleEnhancedIntrinsic) (Some item) classType).1 = true)
  ∧ (itemHash item ∉ adeptWeaponHashes kv →
     (isPlugStatActive kv (Some RuleEnhancedIntrinsic) (Some item) classType).1 = true
     ↔ levelAtLeast20 item).
Proof.
  simpl. split.
  - intros ->. apply orb_true_r.
  - intros Hadept%includes_false. rewrite Hadept, orb_false_r, bool_decide_eq_true.
    unfold levelAtLeast20. destruct (craftedInfo item) as [info|]; simpl.
    + destruct (level info) as [l|] eqn:Hl; simpl.
      * split; [eauto|]. intros (? & ? & [= <-] & Hl' & ?). congruence.
      * split; [lia|]. intros (? & ? & [= <-] & Hl' & ?). congruence.
    + split; [lia|]. by intros (? & ? & ? & _).
Qed.

End RuleLadder.

(** * Further properties of the merge *)

Section MergeMore.

Implicit Types (s x : DestinyItemInvestmentStatDefinition).
Implicit Types (raw m : list DestinyItemInvestmentStatDefinition).

Lemma foldl_addInvestmentStat_fresh raw m :
  NoDup (statTypeHash <$> m ++ raw) →
  foldl addInvestmentStat m raw = m ++ raw.
Proof.
  revert m. induction raw as [|s raw IH]; intros m Hnd; simpl.
  - by rewrite app_nil_r.
  - rewrite addInvestmentStat_fresh.
    + rewrite IH; rewrite <-app_assoc; done.
    + rewrite fmap_app, fmap_cons in Hnd. apply NoDup_app in Hnd as (_ & Hdisj & _).
      intros Hin. apply (Hdisj _ Hin). apply list_elem_of_here.
Qed.

(** X9: a list whose entries have pairwise different stat types is
    returned as it is by the merge, and merging twice is merging once. *)
Theorem getPlugInvestmentStats_idempotent raw :
  (NoDup (statTypeHash <$> raw) → getPlugInvestmentStats raw = raw)
  ∧ getPlugInvestmentStats (getPlugInvestmentStats raw) = getPlugInvestmentStats raw.
Proof.
  assert (∀ l, NoDup (statTypeHash <$> l) → getPlugInvestmentStats l = l) as Hid.
  { intros l Hl. unfold getPlugInvestmentStats. by rewrite foldl_addInvestmentStat_fresh. }
  split; [apply Hid|]. apply Hid, NoDup_getPlugInvestmentStats.
Qed.

Lemma sumValues_app m1 m2 : sumValues (m1 ++ m2) = (sumValues m1 + sumValues m2)%Z.
Proof.
  unfold sumValues. rewrite fmap_app, foldr_app.
  induction (value <$> m1) as [|v l IH]; simpl; [done|]. rewrite IH. lia.
Qed.

Lemma sumValues_cons x m : sumValues (x :: m) = (value x + sumValues m)%Z.
Proof. done. Qed.

Lemma sumValues_addInvestmentStat m s :
  sumValues (addInvestmentStat m s) = (sumValues m + value s)%Z.
Proof.
  induction m as [|x m IH].
  - rewrite addInvestmentStat_nil, sumValues_cons. unfold sumValues. simpl. lia.
  - rewrite addInvestmentStat_cons. case_decide.
    + rewrite !sumValues_cons. unfold bump. simpl. lia.
    + rewrite !sumValues_cons, IH. lia.
Qed.

Lemma length_addInvestmentStat m s :
  length (addInvestmentStat m s) ≤ S (length m).
Proof.
  induction m as [|x m IH]; [done|].
  rewrite addInvestmentStat_cons. case_decide; simpl; lia.
Qed.

Lemma length_getPlugInvestmentStats raw :
  length (getPlugInvestmentStats raw) ≤ length raw.
Proof.
  induction raw as [|s raw IH] using rev_ind; [done|].
  unfold getPlugInvestmentStats in *. rewrite foldl_snoc, length_app. simpl.
  pose proof (length_addInvestmentStat (foldl addInvestmentStat [] raw) s). lia.
Qed.

(** X10: the merge loses nothing and invents nothing: the values add up to
    the same sum, the stat types are the same, and there are at most as many
    entries as before. *)
Theorem getPlugInvestmentStats_preserves raw :
  sumValues (getPlugInvestmentStats raw) = sumValues raw
  ∧ (∀ h, h ∈ statTypeHash <$> getPlugInvestmentStats raw ↔ h ∈ statTypeHash <$> raw)
  ∧ length (getPlugInvestmentStats raw) ≤ length raw.
Proof.
  split; [|split].
  - induction raw as [|s raw IH] using rev_ind; [done|].
    unfold getPlugInvestmentStats in *.
    rewrite foldl_snoc, sumValues_addInvestmentStat, IH, sumValues_app.
    unfold sumValues. simpl. lia.
  - intros h. rewrite getPlugInvestmentStats_mergedStats, types_mergedStats.
    apply elem_of_firstOfEachType_types.
  - apply length_getPlugInvestmentStats.
Qed.

Lemma firstOfEachType_first raw x :
  x ∈ firstOfEachType raw →
  ∃ l1 l2, raw = l1 ++ x :: l2 ∧ statTypeHash x ∉ statTypeHash <$> l1.
Proof.
  induction raw as [|s raw IH]; simpl; [by intros ?%elem_of_nil|].
  intros [->|Hx]%elem_of_cons.
  - exists [], raw. split; [done|]. apply not_elem_of_nil.
  - apply list_elem_of_filter in Hx as [Hne Hx].
    destruct (IH Hx) as (l1 & l2 & -> & Hl1). exists (s :: l1), l2.
    split; [done|]. rewrite fmap_cons, not_elem_of_cons. done.
Qed.

(** X11: a merged entry keeps the conditional flag of the first raw entry
    of its stat type; the flags of the entries added into it are lost. *)
Theorem getPlugInvestmentStats_first_flag raw x :
  x ∈ getPlugInvestmentStats raw →
  ∃ l1 s l2, raw = l1 ++ s :: l2
    ∧ (statTypeHash s ∉ statTypeHash <$> l1)
    ∧ statTypeHash x = statTypeHash s
    ∧ isConditionallyActive x = isConditionallyActive s.
Proof.
  rewrite getPlugInvestmentStats_mergedStats. unfold mergedStats.
  intros (s & -> & Hs)%list_elem_of_fmap.
  destruct (firstOfEachType_first _ _ Hs) as (l1 & l2 & -> & Hl1).
  by exists l1, s, l2.
Qed.

End MergeMore.

(** * Further properties of the elaboration *)

Section ElaborationMore.

Variable kv : KnownValues.

Implicit Types (itemDef : DestinyInventoryItemDefinition).
Implicit Types (s stat : DestinyItemInvestmentStatDefinition).
Implicit Types (m : list DestinyItemInvestmentStatDefinition).

Lemma resolveStat_ruledStat itemDef s :
  (resolveStat kv itemDef s).1 = ruledStat kv itemDef s.
Proof.
  unfold resolveStat, ruledStat. rewrite bind_fst. cbv zeta.
  destruct (getPlugInvestmentStatActivityRule kv itemDef s).1 as [[]|]; done.
Qed.

Lemma filterMapFrom_fst_omap {A B} (fn : A → nat → Logged (option B)) (g : A → option B)
    index (l : list A) :
  (∀ x i, x ∈ l → (fn x i).1 = g x) →
  (filterMapFrom index fn l).1 = omap g l.
Proof.
  revert index. induction l as [|x l IH]; intros index Hfn; [done|].
  cbn [filterMapFrom]. rewrite !bind_fst. cbn [ret fst].
  rewrite Hfn by apply list_elem_of_here.
  rewrite (IH (S index)) by (intros; apply Hfn; by apply list_elem_of_further). done.
Qed.

Lemma omap_all_Some {A B} (g : A → option B) (f : A → B) (l : list A) :
  (∀ x, x ∈ l → g x = Some (f x)) → omap g l = f <$> l.
Proof.
  induction l as [|x l IH]; intros Hg; [done|].
  rewrite fmap_cons, <-IH by (intros; apply Hg; by apply list_elem_of_further).
  simpl. by rewrite Hg by apply list_elem_of_here.
Qed.

Lemma elaborateStat_fst_ruledStat itemDef m s index :
  hash itemDef ≠ Bipod ∨ length m ≠ 4 →
  (elaborateStat kv itemDef m s index).1 = ruledStat kv itemDef s.
Proof.
  intros Hb. rewrite <-resolveStat_ruledStat. unfold elaborateStat.
  repeat case_bool_decide; try done. naive_solver.
Qed.

Lemma fastPathCondition_true itemDef m :
  fastPathCondition kv itemDef m = true ↔
  ¬ isExoticCatalyst kv itemDef ∧ ∀ s, s ∈ m → isConditionallyActive s = false.
Proof.
  unfold fastPathCondition.
  rewrite andb_true_iff, negb_true_iff, includes_opt_not_catalyst, forallb_forall.
  apply and_iff_compat_l. split.
  - intros H s Hs%list_elem_of_In. by apply negb_true_iff, H.
  - intros H s Hs%list_elem_of_In. by apply negb_true_iff, H.
Qed.

(** The result, whichever path is taken, when the Bipod workaround is not
    in force. *)
Lemma mapAndFilterInvestmentStats_omap itemDef :
  let merged := getPlugInvestmentStats (investmentStats itemDef) in
  hash itemDef ≠ Bipod ∨ length merged ≠ 4 →
  (mapAndFilterInvestmentStats kv itemDef).1 = omap (ruledStat kv itemDef) merged.
Proof.
  intros merged Hb. rewrite mapAndFilterInvestmentStats_unfold. cbv zeta. fold merged.
  destruct (fastPathCondition kv itemDef merged) eqn:Hfast.
  - cbn [ret fst]. symmetry. apply omap_all_Some. intros s Hs.
    apply fastPathCondition_true in Hfast as [Hcat Hflags].
    unfold ruledStat. by rewrite unconditional_rule_none by auto.
  - apply filterMapFrom_fst_omap. intros. by apply elaborateStat_fst_ruledStat.
Qed.

(** X12: unless the Bipod workaround is in force (the Bipod hash with four
    merged entries), the result is the same on the fast path and past it:
    the merged entries in order, each with the rule the resolver gives it,
    without the entries whose rule is never-active. *)
Theorem mapAndFilterInvestmentStats_spec itemDef :
  hash itemDef ≠ Bipod ∨ length (getPlugInvestmentStats (investmentStats itemDef)) ≠ 4 →
  (mapAndFilterInvestmentStats kv itemDef).1
  = omap (ruledStat kv itemDef) (getPlugInvestmentStats (investmentStats itemDef)).
Proof. apply mapAndFilterInvestmentStats_omap. Qed.

Lemma mapAndFilterInvestmentStats_elem itemDef y :
  y ∈ (mapAndFilterInvestmentStats kv itemDef).1 →
  ∃ s, s ∈ getPlugInvestmentStats (investmentStats itemDef) ∧ ruledStat kv itemDef s = Some y.
Proof.
  rewrite mapAndFilterInvestmentStats_unfold. cbv zeta.
  destruct (fastPathCondition _ _ _) eqn:Hfast.
  - cbn [ret fst]. intros (s & -> & Hs)%list_elem_of_fmap. exists s. split; [done|].
    apply fastPathCondition_true in Hfast as [Hcat Hflags].
    unfold ruledStat. by rewrite unconditional_rule_none by auto.
  - intros (s & i & Hs & Hy)%filterMapFrom_elem. exists s. split; [done|].
    apply elaborateStat_Some in Hy. by rewrite <-resolveStat_ruledStat.
Qed.

(** X13: no returned stat carries the never-active rule; each carries the
    rule the resolver gives to a merged entry of its stat type and value,
    and is therefore active when neither an item nor a class type is
    known. *)
Theorem returned_stats_active itemDef y :
  y ∈ (mapAndFilterInvestmentStats kv itemDef).1 →
  activityRule y ≠ Some RuleNever
  ∧ (isPlugStatActive kv (activityRule y) None None).1 = true
  ∧ ∃ s, s ∈ getPlugInvestmentStats (investmentStats itemDef)
      ∧ plugStatTypeHash y = statTypeHash s
      ∧ plugValue y = value s
      ∧ activityRule y = (getPlugInvestmentStatActivityRule kv itemDef s).1.
Proof.
  intros (s & Hs & Hy)%mapAndFilterInvestmentStats_elem.
  unfold ruledStat in Hy. cbv zeta in Hy. case_decide as Hr; [done|].
  injection Hy as <-. simpl. split; [done|]. split; [|by exists s].
  by destruct (getPlugInvestmentStatActivityRule kv itemDef s).1 as [[]|].
Qed.

(** X14: for a definition with the catalyst trait other than the Bipod
    workaround case, every merged entry is returned, under the masterwork
    rule. *)
Theorem catalyst_stats_masterwork itemDef :
  isExoticCatalyst kv itemDef →
  hash itemDef ≠ Bipod ∨ length (getPlugInvestmentStats (investmentStats itemDef)) ≠ 4 →
  (mapAndFilterInvestmentStats kv itemDef).1
  = masterworkStat <$> getPlugInvestmentStats (investmentStats itemDef).
Proof.
  intros Hcat%includes_opt_catalyst Hb. rewrite mapAndFilterInvestmentStats_omap by done.
  apply omap_all_Some. intros s _.
  unfold ruledStat, getPlugInvestmentStatActivityRule. by rewrite Hcat.
Qed.

(** X15: the stat types of the result are a subsequence of the stat types
    of the raw entries in order of first occurrence, so the result is never
    longer than the raw list; without raw entries the result and the log are
    empty. *)
Theorem returned_stats_bounded itemDef :
  plugStatTypeHash <$> (mapAndFilterInvestmentStats kv itemDef).1
    `sublist_of` statTypeHash <$> firstOfEachType (investmentStats itemDef)
  ∧ length (mapAndFilterInvestmentStats kv itemDef).1 ≤ length (investmentStats itemDef)
  ∧ (investmentStats itemDef = [] → mapAndFilterInvestmentStats kv itemDef = ([], [])).
Proof.
  assert (plugStatTypeHash <$> (mapAndFilterInvestmentStats kv itemDef).1
            `sublist_of` statTypeHash <$> getPlugInvestmentStats (investmentStats itemDef))
    as Hsub.
  { rewrite mapAndFilterInvestmentStats_unfold. cbv zeta.
    destruct (fastPathCondition _ _ _).
    - cbn [ret fst]. by rewrite <-list_fmap_compose.
    - apply filterMapFrom_types.
      intros s i y Hy%elaborateStat_Some%resolveStat_Some. tauto. }
  split; [|split].
  - by rewrite getPlugInvestmentStats_mergedStats, types_mergedStats in Hsub.
  - apply sublist_length in Hsub. rewrite !length_fmap in Hsub.
    pose proof (length_getPlugInvestmentStats (investmentStats itemDef)). lia.
  - intros Hraw. rewrite mapAndFilterInvestmentStats_unfold, Hraw. cbv zeta.
    by destruct (fastPathCondition _ _ _).
Qed.

Lemma getPlugInvestmentStatActivityRule_log_mod itemDef stat e :
  e ∈ (getPlugInvestmentStatActivityRule kv itemDef stat).2 → isClassAbilityMod kv itemDef.
Proof.
  unfold getPlugInvestmentStatActivityRule, isClassAbilityMod.
  destruct (includes_opt _ _); [by intros ?%elem_of_nil|].
  destruct (negb _); [by intros ?%elem_of_nil|].
  case_bool_decide; [by intros ?%elem_of_nil|].
  destruct (_ || _); [by intros ?%elem_of_nil|].
  destruct (bool_decide (hash itemDef = EchoOfPersistence kv)
            || bool_decide (hash itemDef = SparkOfFocus kv)) eqn:Hmod.
  - apply orb_true_iff in Hmod. by rewrite !bool_decide_eq_true in Hmod.
  - repeat case_match; by intros ?%elem_of_nil.
Qed.

(** X16: the fast path logs nothing; past it, the Bipod warning is logged
    only for the Bipod hash with a number of merged entries other than four,
    and the unknown stat warning only for the class ability mods, so any
    other definition is elaborated with an empty log. *)
Theorem elaboration_log itemDef :
  let merged := getPlugInvestmentStats (investmentStats itemDef) in
  let log := (mapAndFilterInvestmentStats kv itemDef).2 in
  (fastPathCondition kv itemDef merged = true → log = [])
  ∧ (WarnBipodWorkaround ∈ log → hash itemDef = Bipod ∧ length merged ≠ 4)
  ∧ (∀ h n, WarnUnknownStatEffect h n ∈ log →
            isClassAbilityMod kv itemDef ∧ h = hash itemDef
            ∧ n = name (displayProperties itemDef))
  ∧ (hash itemDef ≠ Bipod → ¬ isClassAbilityMod kv itemDef → log = []).
Proof.
  intros merged log. unfold log. rewrite mapAndFilterInvestmentStats_unfold. cbv zeta.
  fold merged. clear log.
  assert (∀ e s i, e ∈ (elaborateStat kv itemDef merged s i).2 →
            (e = WarnBipodWorkaround ∧ hash itemDef = Bipod ∧ length merged ≠ 4)
            ∨ (e = WarnUnknownStatEffect (hash itemDef) (name (displayProperties itemDef))
               ∧ isClassAbilityMod kv itemDef)) as Hlog.
  { intros e s i. unfold elaborateStat.
    repeat case_bool_decide; rewrite ?bind_snd, ?resolveStat_log; cbn [logLine snd app];
      intros He.
    - by apply elem_of_nil in He.
    - right. eauto using getPlugInvestmentStatActivityRule_log,
        getPlugInvestmentStatActivityRule_log_mod.
    - apply elem_of_cons in He as [->|He]; [by left|].
      right. eauto using getPlugInvestmentStatActivityRule_log,
        getPlugInvestmentStatActivityRule_log_mod.
    - right. eauto using getPlugInvestmentStatActivityRule_log,
        getPlugInvestmentStatActivityRule_log_mod. }
  destruct (fastPathCondition kv itemDef merged).
  - cbn [ret snd]. split; [done|]. split; [by intros ?%elem_of_nil|].
    split; [by intros ? ? ?%elem_of_nil|done].
  - split; [done|]. split; [|split].
    + intros (s & i & _ & He)%filterMapFrom_log.
      apply Hlog in He as [(_ & ? & ?)|(? & _)]; done.
    + intros h n (s & i & _ & He)%filterMapFrom_log.
      apply Hlog in He as [(? & _)|([= -> ->] & ?)]; done.
    + intros Hb Hmod.
      destruct (filterMap merged (elaborateStat kv itemDef merged)).2 as [|e l] eqn:Hl;
        [done|].
      assert (e ∈ (filterMap merged (elaborateStat kv itemDef merged)).2) as He.
      { rewrite Hl. apply list_elem_of_here. }
      apply filterMapFrom_log in He as (s & i & _ & He).
      apply Hlog in He as [(_ & ? & _)|(_ & ?)]; done.
Qed.

End ElaborationMore.

(** * Further properties of the plug descriptions *)

Section DescriptionsMore.

Variable kv : KnownValues.

Implicit Types (plug : DestinyInventoryItemDefinition) (defs : D2ManifestDefinitions).
Implicit Types (st : DescState) (used : gset string).

Lemma shownTexts_snoc entries e : shownTexts (entries ++ [e]) = shownTexts entries ++ entryTexts e.
Proof. unfold shownTexts. rewrite bind_app. simpl. by rewrite app_nil_r. Qed.

Lemma useOnce_cases (o : option string) used :
  (useOnce o used = (None, used))
  ∨ (∃ t, o = Some t ∧ (t ∉ used) ∧ useOnce o used = (Some t, used ∪ {[t]})).
Proof.
  unfold useOnce. destruct o as [t|]; [|by left].
  case_bool_decide; [by left|]. right. eauto.
Qed.

Lemma shownPerkName_ok perkName plugName :
  shownPerkName perkName plugName ≠ Some "" ∧ shownPerkName perkName plugName ≠ Some plugName.
Proof.
  unfold shownPerkName. repeat case_bool_decide; simpl; split; congruence.
Qed.

(** Pushing an entry for two texts that went through [useOnce], when one
    of them is left, or pushing nothing when none is. *)
Lemma descInv_push plugName st (o1 o2 : option string) h nm :
  descInv plugName st →
  nm ≠ Some "" → nm ≠ Some plugName →
  let d := useOnce o1 st.2 in
  let r := useOnce o2 d.2 in
  descInv plugName
    (if bool_decide (is_Some d.1) || bool_decide (is_Some r.1) then
       (st.1 ++ [{| descPerkHash := h; descName := nm;
                    descDescription := d.1; descRequirement := r.1 |}], r.2)
     else (st.1, r.2)).
Proof.
  intros (Hnd & Hused & Hall) Hnm1 Hnm2 d r. subst d r.
  destruct (useOnce_cases o1 st.2) as [H1|(t1 & -> & Ht1 & H1)]; rewrite H1; cbn [fst snd].
  - destruct (useOnce_cases o2 st.2) as [H2|(t2 & -> & Ht2 & H2)]; rewrite H2; cbn [fst snd].
    + rewrite !bool_decide_eq_false_2 by (by intros [? ?]). done.
    + rewrite (bool_decide_eq_true_2 (is_Some (Some t2))), orb_true_r by eauto.
      split; [|split]; cbn [fst snd].
      * rewrite shownTexts_snoc. apply NoDup_app. split; [done|]. split.
        -- intros t Ht ?%list_elem_of_singleton. subst. by apply Ht2, Hused.
        -- apply NoDup_singleton.
      * intros t. rewrite shownTexts_snoc, elem_of_app, elem_of_union, Hused.
        unfold entryTexts. simpl. set_solver.
      * apply Forall_app. split; [done|]. by repeat constructor.
  - rewrite (bool_decide_eq_true_2 (is_Some (Some t1))) by eauto. cbn [orb].
    destruct (useOnce_cases o2 (st.2 ∪ {[t1]})) as [H2|(t2 & -> & Ht2 & H2)];
      rewrite H2; cbn [fst snd].
    + split; [|split]; cbn [fst snd].
      * rewrite shownTexts_snoc. apply NoDup_app. split; [done|]. split.
        -- intros t Ht ?%list_elem_of_singleton. subst. by apply Ht1, Hused.
        -- apply NoDup_singleton.
      * intros t. rewrite shownTexts_snoc, elem_of_app, elem_of_union, Hused.
        unfold entryTexts. simpl. set_solver.
      * apply Forall_app. split; [done|]. by repeat constructor.
    + split; [|split]; cbn [fst snd].
      * rewrite shownTexts_snoc. apply NoDup_app. split; [done|]. split.
        -- intros t Ht Ht'. unfold entryTexts in Ht'. simpl in Ht'.
           apply elem_of_cons in Ht' as [->|Ht']; [by apply Ht1, Hused|].
           apply list_elem_of_singleton in Ht' as ->. apply Ht2. apply elem_of_union.
           left. by apply Hused.
        -- unfold entryTexts. simpl. apply NoDup_cons. split; [|apply NoDup_singleton].
           intros ->%list_elem_of_singleton. apply Ht2. set_solver.
      * intros t. rewrite shownTexts_snoc, elem_of_app, !elem_of_union, Hused.
        unfold entryTexts. simpl. set_solver.
      * apply Forall_app. split; [done|]. by repeat constructor.
Qed.

Lemma descInv_addDescriptionAsRequirement plugName (o : option string) st :
  descInv plugName st → descInv plugName (addDescriptionAsRequirement o st).
Proof.
  intros (Hnd & Hused & Hall). unfold addDescriptionAsRequirement.
  destruct o as [d|]; [|done]. case_bool_decide as Hd; [done|].
  split; [|split]; cbn [fst snd].
  - rewrite shownTexts_snoc. apply NoDup_app. split; [done|]. split.
    + intros t Ht ?%list_elem_of_singleton. subst. by apply Hd, Hused.
    + apply NoDup_singleton.
  - intros t. rewrite shownTexts_snoc, elem_of_app, elem_of_union, Hused.
        unfold entryTexts. simpl. set_solver.
  - apply Forall_app. split; [done|]. by repeat constructor.
Qed.

Lemma descInv_addDescriptionAsFunctionality plugName (o : option string) st :
  descInv plugName st → descInv plugName (addDescriptionAsFunctionality o st).
Proof.
  intros (Hnd & Hused & Hall). unfold addDescriptionAsFunctionality.
  destruct o as [d|]; [|done]. case_bool_decide as Hd; [done|].
  split; [|split]; cbn [fst snd].
  - rewrite shownTexts_snoc. apply NoDup_app. split; [done|]. split.
    + intros t Ht ?%list_elem_of_singleton. subst. by apply Hd, Hused.
    + apply NoDup_singleton.
  - intros t. rewrite shownTexts_snoc, elem_of_app, elem_of_union, Hused.
        unfold entryTexts. simpl. set_solver.
  - apply Forall_app. split; [done|]. by repeat constructor.
Qed.

Lemma descInv_addPerkDescription plug defs st perk st' :
  addPerkDescription plug defs st perk = Some st' →
  descInv (name (displayProperties plug)) st → descInv (name (displayProperties plug)) st'.
Proof.
  unfold addPerkDescription. case_bool_decide; [by intros [= <-]|].
  destruct (SandboxPerk defs !! perkHash perk) as [sandboxPerk|]; [|done]. simpl.
  intros Hst Hinv.
  pose proof (descInv_push _ st
    (orUndefined (description (sandboxDisplayProperties sandboxPerk)))
    (orUndefined (requirementDisplayString perk)) (perkHash perk)
    (shownPerkName (name (sandboxDisplayProperties sandboxPerk)) (name (displayProperties plug)))
    Hinv (proj1 (shownPerkName_ok _ _)) (proj2 (shownPerkName_ok _ _))) as Hp.
  cbv zeta in Hp. by destruct (_ || _); injection Hst as <-.
Qed.

Lemma descInv_forEachPerk plug defs perks st st' :
  forEachPerk plug defs perks st = Some st' →
  descInv (name (displayProperties plug)) st → descInv (name (displayProperties plug)) st'.
Proof.
  revert st. induction perks as [|perk perks IH]; intros st; simpl; [by intros [= <-]|].
  destruct (addPerkDescription plug defs st perk) as [st1|] eqn:H1; [|done]. simpl.
  eauto using descInv_addPerkDescription.
Qed.

Lemma descInv_addPerkDescriptions plug defs st st' :
  addPerkDescriptions kv plug defs st = Some st' →
  descInv (name (displayProperties plug)) st → descInv (name (displayProperties plug)) st'.
Proof.
  unfold addPerkDescriptions. intros (perks & _ & H)%bind_Some.
  eauto using descInv_forEachPerk.
Qed.

Lemma descInv_keepFirstPerk plug defs st st' :
  keepFirstPerk plug defs st = Some st' →
  descInv (name (displayProperties plug)) st → descInv (name (displayProperties plug)) st'.
Proof.
  unfold keepFirstPerk. destruct st.1 eqn:Hst1; [|by intros [= <-]].
  destruct (perks plug) as [|firstPerk ?]; [by intros [= <-]|].
  destruct (SandboxPerk defs !! perkHash firstPerk) as [sandboxPerk|]; [|done]. simpl.
  intros Hst Hinv.
  pose proof (descInv_push _ st
    (orUndefined (description (sandboxDisplayProperties sandboxPerk)))
    (orUndefined (requirementDisplayString firstPerk)) (perkHash firstPerk)
    (shownPerkName (name (sandboxDisplayProperties sandboxPerk)) (name (displayProperties plug)))
    Hinv (proj1 (shownPerkName_ok _ _)) (proj2 (shownPerkName_ok _ _))) as Hp.
  cbv zeta in Hp. rewrite Hst1 in Hp. by destruct (_ || _); injection Hst as <-.
Qed.

Lemma descInv_getPerkDescriptions plug defs entries used :
  getPerkDescriptions kv plug defs = Some (entries, used) →
  descInv (name (displayProperties plug)) (entries, used).
Proof.
  unfold getPerkDescriptions. intros (st & Hst & Hk)%bind_Some.
  apply descInv_keepFirstPerk in Hk; [done|]. clear Hk.
  assert (descInv (name (displayProperties plug)) (([], ∅) : DescState)) as H0.
  { split; [constructor|]. split; [|constructor]. intros t. cbn. set_solver. }
  destruct (includes_opt (traitHashes plug) _).
  { apply bind_Some in Hst as (st0 & Hst0 & [= <-]).
    eauto using descInv_addPerkDescriptions, descInv_addDescriptionAsRequirement. }
  destruct (includes_opt (itemCategoryHashes plug) _).
  { apply bind_Some in Hst as (st0 & Hst0 & Hst).
    case_bool_decide; injection Hst as <-;
      eauto using descInv_addPerkDescriptions, descInv_addDescriptionAsRequirement,
        descInv_addDescriptionAsFunctionality. }
  destruct (orUndefined (description (displayProperties plug))) eqn:Hd.
  - simplify_eq. by apply (descInv_addDescriptionAsFunctionality _ (Some s)).
  - eauto using descInv_addPerkDescriptions.
Qed.

(** X17: no text is shown twice for a plug: the descriptions and
    requirements of the entries are pairwise different strings, none of them
    empty, and they are exactly the strings recorded as used. *)
Theorem getPerkDescriptions_no_repeat plug defs entries used :
  getPerkDescriptions kv plug defs = Some (entries, used) →
  NoDup (shownTexts entries)
  ∧ (∀ t, t ∈ used ↔ t ∈ shownTexts entries)
  ∧ "" ∉ shownTexts entries.
Proof.
  intros Hget. destruct (descInv_getPerkDescriptions _ _ _ _ Hget) as (Hnd & Hused & _).
  split; [done|]. split; [done|]. rewrite <-(Hused "").
  by eapply getPerkDescriptions_nonempty.
Qed.

(** X18: every entry shows something, a description or a requirement, and
    the name of an entry is never empty and never the name of the plug. *)
Theorem getPerkDescriptions_entries plug defs entries used e :
  getPerkDescriptions kv plug defs = Some (entries, used) →
  e ∈ entries →
  (is_Some (descDescription e) ∨ is_Some (descRequirement e))
  ∧ descName e ≠ Some ""
  ∧ descName e ≠ Some (name (displayProperties plug)).
Proof.
  intros Hget He. destruct (descInv_getPerkDescriptions _ _ _ _ Hget) as (_ & _ & Hall).
  rewrite Forall_forall in Hall. destruct (Hall e He) as (Htexts & Hn1 & Hn2).
  split; [|done]. unfold entryTexts in Htexts.
  destruct (descDescription e), (descRequirement e); eauto. done.
Qed.

(** X19: a plug that is neither a catalyst nor an armor mod and has a
    description gets that description as its only entry; its perks are not
    read, so no manifest lookup can fail. *)
Theorem described_plug plug defs :
  ¬ hasCatalystTrait kv plug →
  ¬ isArmorMod kv plug →
  description (displayProperties plug) ≠ "" →
  getPerkDescriptions kv plug defs
  = Some ([{| descPerkHash := 0; descName := None;
              descDescription := Some (description (displayProperties plug));
              descRequirement := None |}],
          {[ description (displayProperties plug) ]}).
Proof.
  intros Hcat Harmor Hdesc.
  rewrite <-includes_opt_hasCatalystTrait in Hcat. apply not_true_is_false in Hcat.
  rewrite <-includes_opt_isArmorMod in Harmor. apply not_true_is_false in Harmor.
  unfold getPerkDescriptions, keepFirstPerk.
  rewrite Hcat, Harmor, orUndefined_nonempty by done. simpl.
  rewrite bool_decide_eq_false_2 by set_solver. simpl.
  by rewrite (left_id_L ∅ (∪)).
Qed.

Lemma addPerkDescription_is_Some plug defs st perk :
  is_Some (SandboxPerk defs !! perkHash perk) →
  is_Some (addPerkDescription plug defs st perk).
Proof.
  intros [sandboxPerk Hs]. unfold addPerkDescription. rewrite Hs. simpl.
  case_bool_decide; [done|]. by destruct (_ || _).
Qed.

Lemma forEachPerk_is_Some plug defs perks st :
  (∀ perk, perk ∈ perks → is_Some (SandboxPerk defs !! perkHash perk)) →
  is_Some (forEachPerk plug defs perks st).
Proof.
  revert st. induction perks as [|perk perks IH]; intros st Hall; simpl; [done|].
  destruct (addPerkDescription_is_Some plug defs st perk) as [st1 ->].
  { apply Hall, list_elem_of_here. }
  simpl. apply IH. intros. by apply Hall, list_elem_of_further.
Qed.

Lemma keepFirstPerk_is_Some plug defs st :
  (∀ perk, perk ∈ perks plug → is_Some (SandboxPerk defs !! perkHash perk)) →
  is_Some (keepFirstPerk plug defs st).
Proof.
  intros Hall. unfold keepFirstPerk. destruct st.1; [|done].
  destruct (perks plug) as [|firstPerk rest]; [done|].
  destruct (Hall firstPerk) as [sandboxPerk ->]; [apply list_elem_of_here|]. simpl.
  by destruct (_ || _).
Qed.

(** X20: when the manifest knows every perk of the plug, and the plug is not
    Echo of Persistence, the perk descriptions are computed and the composer
    returns a result, whatever the setting and the community table. *)
Theorem descriptions_computed plug defs :
  (∀ perk, perk ∈ perks plug → is_Some (SandboxPerk defs !! perkHash perk)) →
  hash plug ≠ echoOfPersistence kv →
  is_Some (getPerkDescriptions kv plug defs)
  ∧ ∀ clarityDescriptions allClarityDescriptions descriptionsToDisplay,
      is_Some (usePlugDescriptions kv clarityDescriptions (Some defs)
                 allClarityDescriptions descriptionsToDisplay (Some plug)).
Proof.
  intros Hall Hecho.
  assert (∀ st, is_Some (addPerkDescriptions kv plug defs st)) as Hadd.
  { intros st. unfold addPerkDescriptions. rewrite bool_decide_eq_false_2 by done. simpl.
    by apply forEachPerk_is_Some. }
  assert (is_Some (getPerkDescriptions kv plug defs)) as [[entries used] Hget].
  { unfold getPerkDescriptions.
    destruct (includes_opt (traitHashes plug) _).
    { destruct (Hadd ([], ∅)) as [st ->]. simpl. by apply keepFirstPerk_is_Some. }
    destruct (includes_opt (itemCategoryHashes plug) _).
    { destruct (Hadd ([], ∅)) as [st ->]. simpl.
      case_bool_decide; simpl; by apply keepFirstPerk_is_Some. }
    destruct (orUndefined _).
    - simpl. by apply keepFirstPerk_is_Some.
    - destruct (Hadd ([], ∅)) as [st ->]. simpl. by apply keepFirstPerk_is_Some. }
  split; [by rewrite Hget|]. intros flag table d.
  destruct (usePlugDescriptions_Some kv flag defs table d plug _ _ Hget) as (r & -> & _).
  done.
Qed.

Lemma forEachPerk_unknown plug defs perks st perk :
  perk ∈ perks →
  perkVisibility perk ≠ Hidden →
  SandboxPerk defs !! perkHash perk = None →
  forEachPerk plug defs perks st = None.
Proof.
  intros Hin Hvis Hnone. revert st.
  induction perks as [|p perks IH]; intros st; [by apply elem_of_nil in Hin|].
  simpl. apply elem_of_cons in Hin as [<-|Hin].
  - unfold addPerkDescription. by rewrite bool_decide_eq_false_2, Hnone by done.
  - destruct (addPerkDescription plug defs st p); [|done]. simpl. by apply IH.
Qed.

Lemma readsPerks_getPerkDescriptions plug defs :
  readsPerks kv plug →
  (∀ st, addPerkDescriptions kv plug defs st = None) →
  getPerkDescriptions kv plug defs = None.
Proof.
  intros Hreads Hadd. unfold getPerkDescriptions.
  destruct (includes_opt (traitHashes plug) _) eqn:Hcat; [by rewrite Hadd|].
  destruct (includes_opt (itemCategoryHashes plug) _) eqn:Harmor; [by rewrite Hadd|].
  destruct Hreads as [H|[H|H]].
  - apply includes_opt_hasCatalystTrait in H. congruence.
  - apply includes_opt_isArmorMod in H. congruence.
  - rewrite H. simpl. by rewrite Hadd.
Qed.

(** X21: when the perks of the plug are read (a catalyst, an armor mod, or
    a plug without description) and the manifest does not know one of the
    perks that are not hidden, the lookup fails: no perk descriptions are
    computed and the composer returns nothing. *)
Theorem unknown_perk_fails plug defs perk :
  readsPerks kv plug →
  perk ∈ perks plug →
  perkVisibility perk ≠ Hidden →
  SandboxPerk defs !! perkHash perk = None →
  getPerkDescriptions kv plug defs = None
  ∧ ∀ clarityDescriptions allClarityDescriptions descriptionsToDisplay,
      usePlugDescriptions kv clarityDescriptions (Some defs)
        allClarityDescriptions descriptionsToDisplay (Some plug) = None.
Proof.
  intros Hreads Hin Hvis Hnone.
  assert (getPerkDescriptions kv plug defs = None) as Hget.
  { apply readsPerks_getPerkDescriptions; [done|]. intros st. unfold addPerkDescriptions.
    destruct (if bool_decide _ then _ else _) as [perks'|] eqn:Hperks; [|done]. simpl.
    apply (forEachPerk_unknown _ _ _ _ perk); [|done..].
    case_bool_decide; simplify_option_eq; [|done]. apply elem_of_app. by left. }
  split; [done|]. intros. unfold usePlugDescriptions. by rewrite Hget.
Qed.

(** X22: Echo of Persistence borrows the second perk of Charge Harvester;
    when the manifest has no Charge Harvester, or one with fewer than two
    perks, no perk descriptions are computed for Echo of Persistence. *)
Theorem echo_of_persistence_needs_charge_harvester plug defs :
  hash plug = echoOfPersistence kv →
  readsPerks kv plug →
  (∀ chargeHarvesterDef, InventoryItem defs !! chargeHarvester kv = Some chargeHarvesterDef →
                         length (perks chargeHarvesterDef) < 2) →
  getPerkDescriptions kv plug defs = None.
Proof.
  intros Hecho Hreads Hch. apply readsPerks_getPerkDescriptions; [done|].
  intros st. unfold addPerkDescriptions. rewrite bool_decide_eq_true_2 by done.
  destruct (InventoryItem defs !! chargeHarvester kv) as [ch|] eqn:Hlookup; [|done]. simpl.
  specialize (Hch ch eq_refl). by rewrite lookup_ge_None_2 by lia.
Qed.

(** X23: with the community feature off, or with the setting that asks for
    the official descriptions, the composer returns the official entries
    and no community description, whatever the community table holds. *)
Theorem official_only plug defs entries used clarityDescriptions allClarityDescriptions
    descriptionsToDisplay :
  getPerkDescriptions kv plug defs = Some (entries, used) →
  clarityDescriptions = false ∨ descriptionsToDisplay = bungie →
  usePlugDescriptions kv clarityDescriptions (Some defs) allClarityDescriptions
    descriptionsToDisplay (Some plug)
  = Some {| resultPerks := entries; communityInsight := None |}.
Proof.
  intros Hget Hoff. unfold usePlugDescriptions. rewrite Hget. simpl.
  destruct Hoff as [-> | ->]; [done|]. simpl. by rewrite andb_false_r, orb_true_r.
Qed.

(** X24: when a community description of the plug survives the stripping,
    the community-only setting shows it as the table has it, not stripped,
    and no official entry; the setting for both shows the official entries
    and the stripped community description. *)
Theorem community_shown plug defs entries used allClarityDescriptions clarityPerk stripped :
  getPerkDescriptions kv plug defs = Some (entries, used) →
  allClarityDescriptions ≫= (.!! hash plug) = Some clarityPerk →
  statOnly clarityPerk = false →
  stripUsedStrings clarityPerk used = Some stripped →
  usePlugDescriptions kv true (Some defs) allClarityDescriptions community (Some plug)
  = Some {| resultPerks := []; communityInsight := Some clarityPerk |}
  ∧ usePlugDescriptions kv true (Some defs) allClarityDescriptions both (Some plug)
    = Some {| resultPerks := entries; communityInsight := Some stripped |}.
Proof.
  intros Hget Htable Hstat Hstrip. unfold usePlugDescriptions.
  rewrite Hget. simpl. rewrite Htable, Hstat. simpl. by rewrite Hstrip.
Qed.

End DescriptionsMore.

(** * Further properties of the stripping *)

Section StripMore.

Implicit Types (used : gset string) (line : Line) (content : LinesContent).

Lemma List_filter_idemp {A} (f : A → bool) (l : list A) :
  List.filter f (List.filter f l) = List.filter f l.
Proof.
  induction l as [|x l IH]; [done|]. simpl.
  destruct (f x) eqn:Hx; simpl; by rewrite ?Hx, IH.
Qed.

Lemma List_filter_sublist {A} (f : A → bool) (l : list A) : List.filter f l `sublist_of` l.
Proof.
  induction l as [|x l IH]; [done|]. simpl.
  destruct (f x); [by apply sublist_skip|by apply sublist_cons].
Qed.

Lemma stripLine_idemp used line : stripLine used (stripLine used line) = stripLine used line.
Proof.
  unfold stripLine. destruct (lineText line) as [contents|] eqn:Hline; simpl.
  - by rewrite List_filter_idemp.
  - by rewrite Hline.
Qed.

(** X25: stripping is idempotent: a stripped community description has no
    used string left, and is returned as it is when it is stripped again. *)
Theorem stripUsedStrings_idempotent clarityPerk used stripped :
  stripUsedStrings clarityPerk used = Some stripped →
  stripUsedStrings stripped used = Some stripped.
Proof.
  unfold stripUsedStrings.
  destruct (simpleDescription clarityPerk) as [lines|]; [|done].
  destruct (existsb _ _) eqn:Hex; [|done]. simpl. intros [= <-]. simpl.
  assert (stripLine used <$> (stripLine used <$> lines) = stripLine used <$> lines) as ->.
  { rewrite <-list_fmap_compose. apply list_fmap_ext. intros. apply stripLine_idemp. }
  by rewrite Hex.
Qed.

(** X26: stripping keeps the shape of the community description: the hash
    and the stat-only flag, the number of lines, the class names of each
    line and the lines without contents are unchanged; the contents of a
    line are a subsequence of what they were, and some line still has a
    content. *)
Theorem stripUsedStrings_shape clarityPerk used stripped :
  stripUsedStrings clarityPerk used = Some stripped →
  clarityHash stripped = clarityHash clarityPerk
  ∧ statOnly stripped = statOnly clarityPerk
  ∧ ∃ lines lines',
      simpleDescription clarityPerk = Some lines
      ∧ simpleDescription stripped = Some lines'
      ∧ Forall2 (λ line line',
                   lineClassNames line' = lineClassNames line
                   ∧ (lineText line = None → lineText line' = None)
                   ∧ ∀ contents, lineText line = Some contents →
                       ∃ contents', lineText line' = Some contents'
                                    ∧ contents' `sublist_of` contents)
                lines lines'
      ∧ Exists (λ line', ∃ content rest, lineText line' = Some (content :: rest)) lines'.
Proof.
  unfold stripUsedStrings.
  destruct (simpleDescription clarityPerk) as [lines|]; [|done].
  destruct (existsb _ _) eqn:Hex; [|done]. simpl. intros [= <-]. simpl.
  split; [done|]. split; [done|]. exists lines, (stripLine used <$> lines).
  split; [done|]. split; [done|]. split.
  - apply Forall2_fmap_r, Forall_Forall2_diag, Forall_forall. intros line _.
    unfold stripLine. destruct line as [[contents|] classNames]; simpl.
    + split; [done|]. split; [done|]. intros ? [= <-]. eexists. split; [done|].
      apply List_filter_sublist.
    + done.
  - apply existsb_exists in Hex as (line' & Hin%list_elem_of_In & Hhas).
    apply Exists_exists. exists line'. split; [done|].
    unfold hasLineText in Hhas. destruct (lineText line') as [[|content rest]|]; eauto; done.
Qed.

Lemma keepContent_mono used used' content :
  used ⊆ used' → keepContent used' content = true → keepContent used content = true.
Proof.
  intros Hsub. unfold keepContent. destruct (text content ≫= orUndefined) as [t|]; [|done].
  rewrite !negb_true_iff, !bool_decide_eq_false. set_solver.
Qed.

Lemma hasLineText_stripLine used line :
  hasLineText (stripLine used line) = true ↔
  ∃ contents content, lineText line = Some contents ∧ content ∈ contents
                      ∧ keepContent used content = true.
Proof.
  unfold hasLineText, stripLine. destruct (lineText line) as [contents|] eqn:Hline; simpl.
  - destruct (List.filter (keepContent used) contents) as [|c rest] eqn:Hf.
    + split; [done|]. intros (? & c & [= <-] & Hc & Hk).
      assert (c ∈ List.filter (keepContent used) contents) as Hin.
      { apply list_elem_of_In, filter_In. by rewrite <-list_elem_of_In. }
      rewrite Hf in Hin. by apply elem_of_nil in Hin.
    + split; [|done]. intros _.
      assert (c ∈ List.filter (keepContent used) contents) as Hin.
      { rewrite Hf. apply list_elem_of_here. }
      apply list_elem_of_In, filter_In in Hin as [Hin Hk]. apply list_elem_of_In in Hin.
      eauto.
  - rewrite Hline. split; [done|]. by intros (? & ? & ? & _).
Qed.

Lemma stripUsedStrings_is_Some clarityPerk used :
  is_Some (stripUsedStrings clarityPerk used) ↔
  ∃ lines line contents content,
    simpleDescription clarityPerk = Some lines ∧ line ∈ lines
    ∧ lineText line = Some contents ∧ content ∈ contents
    ∧ keepContent used content = true.
Proof.
  unfold stripUsedStrings. destruct (simpleDescription clarityPerk) as [lines|].
  - destruct (existsb _ _) eqn:Hex; simpl.
    + split; [|by eauto]. intros _.
      apply existsb_exists in Hex as (line' & Hin%list_elem_of_In & Hhas).
      apply list_elem_of_fmap in Hin as (line & -> & Hin).
      apply hasLineText_stripLine in Hhas as (contents & content & ? & ? & ?).
      by exists lines, line, contents, content.
    + split; [by intros [? ?]|]. intros (? & line & contents & content & [= <-] & Hin & H1 & H2 & H3).
      assert (existsb hasLineText (stripLine used <$> lines) = true) as Hex'.
      { apply existsb_exists. exists (stripLine used line). split.
        - apply list_elem_of_In, list_elem_of_fmap. eauto.
        - apply hasLineText_stripLine. eauto. }
      congruence.
  - split; [by intros [? ?]|]. by intros (? & ? & ? & ? & ? & _).
Qed.

(** X27: used strings only take away: when a community description
    survives the stripping for a set of used strings, it survives for every
    smaller set. *)
Theorem stripUsedStrings_monotone clarityPerk used used' :
  used ⊆ used' →
  is_Some (stripUsedStrings clarityPerk used') →
  is_Some (stripUsedStrings clarityPerk used).
Proof.
  intros Hsub. rewrite !stripUsedStrings_is_Some.
  intros (lines & line & contents & content & ? & ? & ? & ? & Hk).
  exists lines, line, contents, content. eauto 10 using keepContent_mono.
Qed.

(** X28: a content without text, or with the empty text, is never stripped,
    so a community description with such a content in one of its lines
    survives the stripping whatever strings are used. *)
Theorem textless_content_survives clarityPerk used lines line :
  simpleDescription clarityPerk = Some lines →
  line ∈ lines →
  hasTextlessContent line →
  is_Some (stripUsedStrings clarityPerk used).
Proof.
  intros Hlines Hline (contents & content & Htext & Hin & Hnone).
  apply stripUsedStrings_is_Some. exists lines, line, contents, content.
  repeat split; try done. unfold keepContent. by destruct Hnone as [-> | ->].
Qed.

End StripMore.

(** * The consolidation loops *)

Section Consolidation.

Variable itemDef : DestinyInventoryItemDefinition.

Implicit Types (a b : DimPlugInvestmentStat) (stats pre front back : list DimPlugInvestmentStat).

Lemma sumPlugValues_app l1 l2 :
  sumPlugValues (l1 ++ l2) = (sumPlugValues l1 + sumPlugValues l2)%Z.
Proof.
  unfold sumPlugValues. rewrite fmap_app, foldr_app.
  induction (plugValue <$> l1) as [|v l IH]; simpl; [done|]. rewrite IH. lia.
Qed.

Lemma absorb_nil a : absorb a [] = a.
Proof. destruct a. unfold absorb, sumPlugValues. simpl. f_equal. lia. Qed.

Lemma lookup_second pre a front b back :
  (pre ++ a :: front ++ b :: back) !! (length pre + S (length front)) = Some b.
Proof.
  change (pre ++ a :: front ++ b :: back) with (pre ++ (a :: front) ++ b :: back).
  rewrite app_assoc. apply list_lookup_middle. rewrite length_app. simpl. lia.
Qed.

Lemma consolidatePair_same pre a front b back :
  sameStat a b →
  (consolidatePair itemDef (length pre) (length pre + S (length front))
     (pre ++ a :: front ++ b :: back)).1
  = pre ++ {| activityRule := activityRule a; plugStatTypeHash := plugStatTypeHash a;
              plugValue := (plugValue a + plugValue b)%Z |} :: front ++ back.
Proof.
  intros [Htype Htag]. unfold consolidatePair.
  rewrite (list_lookup_middle pre (front ++ b :: back) a (length pre) eq_refl).
  rewrite lookup_second.
  rewrite !bool_decide_eq_true_2 by done. rewrite bind_fst. cbn [ret fst].
  rewrite <-(Nat.add_0_r (length pre)) at 2. rewrite insert_app_r. cbn [insert list_insert].
  set (a' := {| activityRule := activityRule a; plugStatTypeHash := plugStatTypeHash a;
                plugValue := (plugValue a + plugValue b)%Z |}).
  change (pre ++ a' :: front ++ b :: back) with (pre ++ (a' :: front) ++ b :: back).
  rewrite app_assoc.
  replace (length pre + S (length front)) with (length (pre ++ a' :: front))
    by (rewrite length_app; simpl; lia).
  rewrite delete_middle. by rewrite <-app_assoc.
Qed.

Lemma consolidatePair_other pre a front b back :
  ¬ sameStat a b →
  (consolidatePair itemDef (length pre) (length pre + S (length front))
     (pre ++ a :: front ++ b :: back)).1
  = pre ++ a :: front ++ b :: back.
Proof.
  intros Hsame. unfold consolidatePair.
  rewrite (list_lookup_middle pre (front ++ b :: back) a (length pre) eq_refl).
  rewrite lookup_second.
  case_bool_decide as Htype; [|done]. case_bool_decide as Htag; [|done].
  destruct Hsame. by split.
Qed.

(** The inner loop at [idx = length pre], over the entries [front] that
    follow [a]. *)
Lemma consolidateInner_spec k pre a front back :
  length front = k →
  (consolidateInner itemDef (length pre) k (pre ++ a :: front ++ back)).1
  = pre ++ absorb a front :: filter (λ b, ¬ sameStat a b) front ++ back.
Proof.
  revert a front back. induction k as [|k IH]; intros a front back Hk.
  - apply nil_length_inv in Hk as ->. by rewrite absorb_nil.
  - destruct front as [|b front _] using rev_ind; [done|].
    rewrite length_app in Hk. simpl in Hk.
    assert (length front = k) as Hfront by lia. clear Hk.
    cbn [consolidateInner]. rewrite bind_fst, <-Hfront, <-!app_assoc. cbn [app].
    rewrite !filter_app, filter_cons, filter_nil.
    destruct (decide (sameStat a b)) as [Hsame|Hother].
    + rewrite consolidatePair_same by done.
      rewrite Hfront, (IH _ front back Hfront).
      rewrite decide_False by tauto. rewrite app_nil_r. f_equal. f_equal.
      unfold absorb. cbn [activityRule plugStatTypeHash plugValue].
      rewrite filter_app, filter_cons, filter_nil, decide_True by done.
      rewrite sumPlugValues_app.
      change (filter (sameStat {| activityRule := activityRule a;
                                  plugStatTypeHash := plugStatTypeHash a;
                                  plugValue := (plugValue a + plugValue b)%Z |}) front)
        with (filter (sameStat a) front).
      f_equal. assert (sumPlugValues [b] = plugValue b) as -> by (unfold sumPlugValues; simpl; lia).
      lia.
    + rewrite consolidatePair_other by done.
      rewrite Hfront, (IH a front (b :: back) Hfront).
      rewrite decide_True by done. rewrite <-app_assoc. cbn [app]. f_equal. f_equal.
      unfold absorb. rewrite filter_app, filter_cons, filter_nil, decide_False by done.
      by rewrite app_nil_r.
Qed.

Lemma consolidateOuter_spec pre suf :
  (consolidateOuter itemDef (length pre) (pre ++ suf)).1 = foldr consolidateStep suf pre.
Proof.
  revert suf. induction pre as [|a pre IH] using rev_ind; intros suf; [done|].
  rewrite length_app, Nat.add_comm. cbn [length Nat.add consolidateOuter].
  rewrite bind_fst, <-app_assoc. cbn [app].
  replace (length (pre ++ a :: suf) - 1 - length pre) with (length suf)
    by (rewrite length_app; simpl; lia).
  pose proof (consolidateInner_spec (length suf) pre a suf [] eq_refl) as Hinner.
  rewrite !app_nil_r in Hinner. rewrite Hinner.
  rewrite foldr_app. cbn [foldr]. apply IH.
Qed.

(** The two loops compute [consolidated]. *)
Lemma consolidate_consolidated stats : (consolidate itemDef stats).1 = consolidated stats.
Proof.
  unfold consolidate, consolidated.
  destruct stats as [|last pre _] using rev_ind; [done|].
  rewrite length_app. simpl. replace (length pre + 1 - 1) with (length pre) by lia.
  rewrite consolidateOuter_spec, foldr_app. cbn [foldr].
  assert (consolidateStep last [] = [last]) as ->; [|done].
  unfold consolidateStep. by rewrite filter_nil, absorb_nil.
Qed.

Lemma consolidatePair_distinct pre a front b back :
  plugStatTypeHash a ≠ plugStatTypeHash b →
  consolidatePair itemDef (length pre) (length pre + S (length front))
    (pre ++ a :: front ++ b :: back)
  = ret (pre ++ a :: front ++ b :: back).
Proof.
  intros Htype. unfold consolidatePair.
  rewrite (list_lookup_middle pre (front ++ b :: back) a (length pre) eq_refl).
  rewrite lookup_second. by rewrite bool_decide_eq_false_2.
Qed.

Lemma consolidateInner_distinct k pre a front back :
  length front = k →
  (∀ b, b ∈ front → plugStatTypeHash a ≠ plugStatTypeHash b) →
  consolidateInner itemDef (length pre) k (pre ++ a :: front ++ back)
  = ret (pre ++ a :: front ++ back).
Proof.
  revert front back. induction k as [|k IH]; intros front back Hk Hfront.
  - by apply nil_length_inv in Hk as ->.
  - destruct front as [|b front _] using rev_ind; [done|].
    rewrite length_app in Hk. simpl in Hk.
    assert (length front = k) as Hlen by lia. clear Hk.
    cbn [consolidateInner]. rewrite <-Hlen, <-!app_assoc. cbn [app].
    rewrite consolidatePair_distinct by (apply Hfront; set_solver).
    rewrite bind_ret_l, Hlen. apply IH; [done|]. intros. apply Hfront. set_solver.
Qed.

Lemma consolidateOuter_distinct pre suf :
  NoDup (plugStatTypeHash <$> pre ++ suf) →
  consolidateOuter itemDef (length pre) (pre ++ suf) = ret (pre ++ suf).
Proof.
  revert suf. induction pre as [|a pre IH] using rev_ind; intros suf Hnd; [done|].
  rewrite length_app, Nat.add_comm. cbn [length Nat.add consolidateOuter].
  rewrite <-app_assoc in *. cbn [app] in *.
  replace (length (pre ++ a :: suf) - 1 - length pre) with (length suf)
    by (rewrite length_app; simpl; lia).
  pose proof (consolidateInner_distinct (length suf) pre a suf [] eq_refl) as Hinner.
  rewrite !app_nil_r in Hinner. rewrite Hinner, ?bind_ret_l; [by apply IH|].
  intros b Hb Heq. rewrite fmap_app, fmap_cons in Hnd.
  apply NoDup_app in Hnd as (_ & _ & Hnd). apply NoDup_cons in Hnd as [Ha _].
  apply Ha. rewrite Heq. by apply list_elem_of_fmap_2.
Qed.

(** X29: on a list whose entries have pairwise different stat types the
    consolidation loops change nothing and log nothing. *)
Theorem consolidate_distinct_unchanged stats :
  NoDup (plugStatTypeHash <$> stats) →
  consolidate itemDef stats = (stats, []).
Proof.
  intros Hnd. unfold consolidate.
  destruct stats as [|last pre _] using rev_ind; [done|].
  rewrite length_app. simpl. replace (length pre + 1 - 1) with (length pre) by lia.
  by apply consolidateOuter_distinct.
Qed.

Lemma totalPlugValue_cons h a stats :
  totalPlugValue h (a :: stats)
  = ((if decide (plugStatTypeHash a = h) then plugValue a else 0) + totalPlugValue h stats)%Z.
Proof.
  unfold totalPlugValue. rewrite filter_cons. case_decide; [done|]. lia.
Qed.

Lemma sumPlugValues_cons a stats :
  sumPlugValues (a :: stats) = (plugValue a + sumPlugValues stats)%Z.
Proof. done. Qed.

Lemma totalPlugValue_split h a stats :
  totalPlugValue h stats
  = ((if decide (plugStatTypeHash a = h) then sumPlugValues (filter (sameStat a) stats) else 0)
     + totalPlugValue h (filter (λ b, ¬ sameStat a b) stats))%Z.
Proof.
  induction stats as [|x stats IH]; [by case_decide|].
  rewrite totalPlugValue_cons, IH.
  rewrite (filter_cons (sameStat a)), (filter_cons (λ b, ¬ sameStat a b)).
  destruct (decide (sameStat a x)) as [[Htype Htag]|Hother];
    destruct (decide (¬ sameStat a x)) as [Hn|Hn]; try tauto.
  - exfalso. apply Hn. by split.
  - rewrite sumPlugValues_cons.
    destruct (decide (plugStatTypeHash a = h)), (decide (plugStatTypeHash x = h));
      try congruence; lia.
  - rewrite totalPlugValue_cons. lia.
Qed.

Lemma totalPlugValue_consolidated h stats :
  totalPlugValue h (consolidated stats) = totalPlugValue h stats.
Proof.
  induction stats as [|a stats IH]; [done|].
  unfold consolidated in *. cbn [foldr]. unfold consolidateStep at 1.
  rewrite !totalPlugValue_cons, <-IH.
  rewrite (totalPlugValue_split h a (foldr consolidateStep [] stats)).
  unfold absorb. cbn [plugStatTypeHash plugValue]. case_decide; lia.
Qed.

Lemma elem_of_consolidated x stats :
  x ∈ consolidated stats →
  ∃ y, y ∈ stats ∧ plugStatTypeHash x = plugStatTypeHash y
       ∧ activityRule x = activityRule y.
Proof.
  revert x. induction stats as [|a stats IH]; intros x; [by intros ?%elem_of_nil|].
  unfold consolidated in *. cbn [foldr]. unfold consolidateStep at 1.
  intros [->|Hx]%elem_of_cons.
  - exists a. split; [apply list_elem_of_here|done].
  - apply list_elem_of_filter in Hx as [_ Hx].
    destruct (IH _ Hx) as (y & ? & ? & ?). exists y. split; [by apply list_elem_of_further|done].
Qed.

Lemma NoDup_consolidated stats :
  (∀ x y, x ∈ stats → y ∈ stats →
          ruleTag <$> activityRule x = ruleTag <$> activityRule y) →
  NoDup (plugStatTypeHash <$> consolidated stats).
Proof.
  induction stats as [|a stats IH]; intros Htags; [constructor|].
  unfold consolidated in *. cbn [foldr]. unfold consolidateStep at 1.
  rewrite fmap_cons. apply NoDup_cons. split.
  - cbn [absorb plugStatTypeHash]. intros (x & Heq & Hx)%list_elem_of_fmap.
    apply list_elem_of_filter in Hx as [Hother Hx]. apply Hother. split; [done|].
    destruct (elem_of_consolidated _ _ Hx) as (y & Hy & _ & ->).
    apply Htags; [apply list_elem_of_here|by apply list_elem_of_further].
  - refine (sublist_NoDup _ _ (IH _) _).
    + intros x y Hx Hy. apply Htags; by apply list_elem_of_further.
    + apply fmap_sublist, sublist_filter.
Qed.

(** X30: the consolidation loops compute [consolidated]: from the end of
    the list, every entry takes up the values of the later entries of its
    stat type and rule discriminant, which are removed. The sum of the
    values of each stat type stays the same, and when all entries have the
    same rule discriminant the result has pairwise different stat types. *)
Theorem consolidate_merges stats :
  (consolidate itemDef stats).1 = consolidated stats
  ∧ (∀ h, totalPlugValue h (consolidate itemDef stats).1 = totalPlugValue h stats)
  ∧ ((∀ x y, x ∈ stats → y ∈ stats →
             ruleTag <$> activityRule x = ruleTag <$> activityRule y) →
     NoDup (plugStatTypeHash <$> (consolidate itemDef stats).1)).
Proof.
  rewrite consolidate_consolidated.
  split; [done|]. split.
  - intros h. apply totalPlugValue_consolidated.
  - apply NoDup_consolidated.
Qed.

End Consolidation.

(** * The further properties at example inputs *)

(** The examples carry no trait hashes. *)
Lemma mkDef_not_catalyst h stats : ¬ isExoticCatalyst sampleValues (mkDef h None stats).
Proof. by intros (traits & Htraits & _). Qed.

Lemma mkPlugDef_not_catalyst h c stats : ¬ isExoticCatalyst sampleValues (mkPlugDef h c stats).
Proof. by intros (traits & Htraits & _). Qed.

Lemma mkDef_not_enhancer h stats : ¬ isEnhancerPreview sampleValues (mkDef h None stats).
Proof. by intros Hp. Qed.

(** X1 at the first stat of [plainTwoStats]. *)
Lemma unconditional_stat_always_active_witness :
  getPlugInvestmentStatActivityRule sampleValues plainTwoStats (mkStat 1 5 false) = (None, [])
  ∧ isPlugStatActive sampleValues
      (getPlugInvestmentStatActivityRule sampleValues plainTwoStats (mkStat 1 5 false)).1
      None None = (true, []).
Proof.
  apply (unconditional_stat_always_active sampleValues plainTwoStats (mkStat 1 5 false)
           None None); [apply mkDef_not_catalyst | reflexivity].
Defined.

(** X2 at an enhancer preview plug. *)
Lemma enhancer_preview_never_witness :
  getPlugInvestmentStatActivityRule sampleValues
    (mkPlugDef 200 (CraftingPlugsWeaponsModsEnhancers sampleValues) [mkStat 1 1 true])
    (mkStat 1 1 true)
  = (Some RuleNever, []).
Proof.
  apply (enhancer_preview_never sampleValues
           (mkPlugDef 200 (CraftingPlugsWeaponsModsEnhancers sampleValues) [mkStat 1 1 true])
           (mkStat 1 1 true));
    [apply mkPlugDef_not_catalyst | reflexivity | reflexivity].
Defined.

(** X3 at the recovery stat of [sparkDef]. *)
Lemma class_ability_mod_rule_witness :
  getPlugInvestmentStatActivityRule sampleValues sparkDef (mkStat 23 (-10) true)
  = (Some (RuleClassType Warlock), []).
Proof.
  apply (class_ability_mod_rule sampleValues sparkDef (mkStat 23 (-10) true)).
  - apply mkDef_not_catalyst.
  - reflexivity.
  - apply mkDef_not_enhancer.
  - intros [H|H]; vm_compute in H; discriminate H.
  - right. reflexivity.
Defined.

(** X4 at [adeptMasterworkDef], whose hash is in the masterwork table. *)
Lemma table_rules_witness :
  getPlugInvestmentStatActivityRule sampleValues adeptMasterworkDef (mkStat 1 5 true)
  = (Some RuleAdeptWeapon, []).
Proof.
  apply (table_rules sampleValues adeptMasterworkDef (mkStat 1 5 true)).
  - apply mkDef_not_catalyst.
  - reflexivity.
  - apply mkDef_not_enhancer.
  - intros [H|H]; vm_compute in H; discriminate H.
  - intros [H|H]; vm_compute in H; discriminate H.
Defined.

(** X6 at the recovery stat of [sparkDef]. *)
Lemma class_rule_origin_witness :
  isClassAbilityMod sampleValues sparkDef
  ∧ ((Warlock = Hunter ∧ statTypeHash (mkStat 23 (-10) true) = Mobility sampleValues)
     ∨ (Warlock = Titan ∧ statTypeHash (mkStat 23 (-10) true) = Resilience sampleValues)
     ∨ (Warlock = Warlock ∧ statTypeHash (mkStat 23 (-10) true) = Recovery sampleValues)).
Proof.
  apply (class_rule_origin sampleValues sparkDef (mkStat 23 (-10) true) Warlock).
  vm_compute. reflexivity.
Defined.

(** X8 at [adeptItem]. *)
Lemma enhanced_intrinsic_active_witness :
  (isPlugStatActive sampleValues (Some RuleEnhancedIntrinsic) (Some adeptItem) None).1 = true.
Proof.
  apply (proj1 (enhanced_intrinsic_active sampleValues adeptItem None)).
  vm_compute. reflexivity.
Defined.

(** X9 at [threeStats]. *)
Lemma getPlugInvestmentStats_idempotent_witness :
  getPlugInvestmentStats threeStats = threeStats.
Proof.
  apply (proj1 (getPlugInvestmentStats_idempotent threeStats)).
  vm_compute. repeat constructor; set_solver.
Defined.

(** X11 at the raw stats of [adeptMasterworkDef]: the merged entry is
    conditional like the first raw entry. *)
Lemma getPlugInvestmentStats_first_flag_witness :
  ∃ l1 s l2, investmentStats adeptMasterworkDef = l1 ++ s :: l2
    ∧ (statTypeHash s ∉ statTypeHash <$> l1)
    ∧ statTypeHash (mkStat 1 2 true) = statTypeHash s
    ∧ isConditionallyActive (mkStat 1 2 true) = isConditionallyActive s.
Proof.
  apply (getPlugInvestmentStats_first_flag (investmentStats adeptMasterworkDef)
           (mkStat 1 2 true)).
  vm_compute. apply list_elem_of_here.
Defined.

(** X12 at [adeptMasterworkDef]. *)
Lemma mapAndFilterInvestmentStats_spec_witness :
  (mapAndFilterInvestmentStats sampleValues adeptMasterworkDef).1
  = omap (ruledStat sampleValues adeptMasterworkDef)
      (getPlugInvestmentStats (investmentStats adeptMasterworkDef)).
Proof.
  apply (mapAndFilterInvestmentStats_spec sampleValues adeptMasterworkDef).
  left. vm_compute. discriminate.
Defined.

(** X13 at the stat returned for [adeptMasterworkDef]. *)
Lemma returned_stats_active_witness :
  (isPlugStatActive sampleValues (Some RuleAdeptWeapon) None None).1 = true.
Proof.
  refine (proj1 (proj2 (returned_stats_active sampleValues adeptMasterworkDef
    {| activityRule := Some RuleAdeptWeapon; plugStatTypeHash := 1; plugValue := 2 |} _))).
  vm_compute. apply list_elem_of_here.
Defined.

(** X14 at [catalystThreeStats]. *)
Lemma catalyst_stats_masterwork_witness :
  (mapAndFilterInvestmentStats sampleValues catalystThreeStats).1
  = masterworkStat <$> getPlugInvestmentStats (investmentStats catalystThreeStats).
Proof.
  apply (catalyst_stats_masterwork sampleValues catalystThreeStats).
  - exists [ItemExoticCatalyst sampleValues]. split; [reflexivity|apply list_elem_of_here].
  - left. vm_compute. discriminate.
Defined.

(** X15 at a definition without investment stats. *)
Lemma returned_stats_bounded_witness :
  mapAndFilterInvestmentStats sampleValues (mkDef 1 None []) = ([], []).
Proof.
  exact (proj2 (proj2 (returned_stats_bounded sampleValues (mkDef 1 None []))) eq_refl).
Defined.

(** X16 at [capacitorTwoStats], which is elaborated past the fast path. *)
Lemma elaboration_log_witness :
  (mapAndFilterInvestmentStats sampleValues capacitorTwoStats).2 = [].
Proof.
  apply (proj2 (proj2 (proj2 (elaboration_log sampleValues capacitorTwoStats)))).
  - vm_compute. discriminate.
  - intros [H|H]; vm_compute in H; discriminate H.
Defined.

(** X17 at [twoPerkMod]. *)
Lemma getPerkDescriptions_no_repeat_witness :
  NoDup (shownTexts twoPerkEntries)
  ∧ (∀ t, t ∈ twoPerkUsed ↔ t ∈ shownTexts twoPerkEntries)
  ∧ "" ∉ shownTexts twoPerkEntries.
Proof.
  apply (getPerkDescriptions_no_repeat sampleValues twoPerkMod twoPerkDefs
           twoPerkEntries twoPerkUsed).
  vm_compute. reflexivity.
Defined.

(** X18 at the first entry of [twoPerkMod]. *)
Lemma getPerkDescriptions_entries_witness :
  (is_Some (Some "Deals fire damage") ∨ is_Some (Some "In raids only"))
  ∧ None ≠ Some ""
  ∧ None ≠ Some "mod".
Proof.
  refine (getPerkDescriptions_entries sampleValues twoPerkMod twoPerkDefs
            twoPerkEntries twoPerkUsed
            {| descPerkHash := 401; descName := None;
               descDescription := Some "Deals fire damage";
               descRequirement := Some "In raids only" |} _ _).
  - vm_compute. reflexivity.
  - apply list_elem_of_here.
Defined.

(** X19 at [describedPlug], whose perk the manifest does not know. *)
Lemma described_plug_witness :
  getPerkDescriptions sampleValues describedPlug emptyDefs
  = Some ([{| descPerkHash := 0; descName := None;
              descDescription := Some "Reloads faster"; descRequirement := None |}],
          {[ "Reloads faster" ]}).
Proof.
  refine (described_plug sampleValues describedPlug emptyDefs _ _ _).
  - by intros (traits & Htraits & _).
  - by intros (categories & Hcategories & _).
  - vm_compute. discriminate.
Defined.

(** X20 at [twoPerkMod], whose perks [twoPerkDefs] knows. *)
Lemma descriptions_computed_witness :
  is_Some (getPerkDescriptions sampleValues twoPerkMod twoPerkDefs).
Proof.
  refine (proj1 (descriptions_computed sampleValues twoPerkMod twoPerkDefs _ _)).
  - intros perk Hperk. apply elem_of_cons in Hperk as [->|Hperk].
    + vm_compute. eauto.
    + apply list_elem_of_singleton in Hperk as ->. vm_compute. eauto.
  - vm_compute. discriminate.
Defined.

(** X21 at [twoPerkMod] with a manifest that does not know its perks. *)
Lemma unknown_perk_fails_witness :
  getPerkDescriptions sampleValues twoPerkMod emptyDefs = None.
Proof.
  refine (proj1 (unknown_perk_fails sampleValues twoPerkMod emptyDefs
            {| perkHash := 401; perkVisibility := Visible;
               requirementDisplayString := "In raids only" |} _ _ _ _)).
  - right. left. exists [ArmorMods sampleValues]. split; [reflexivity|apply list_elem_of_here].
  - apply list_elem_of_here.
  - discriminate.
  - reflexivity.
Defined.

(** X22 at [echoDef] with a manifest without Charge Harvester. *)
Lemma echo_of_persistence_needs_charge_harvester_witness :
  getPerkDescriptions sampleValues echoDef emptyDefs = None.
Proof.
  refine (echo_of_persistence_needs_charge_harvester sampleValues echoDef emptyDefs _ _ _).
  - reflexivity.
  - right. right. reflexivity.
  - intros chargeHarvesterDef Hlookup. vm_compute in Hlookup. discriminate Hlookup.
Defined.

(** X23 at [armorModDef] with the official setting. *)
Lemma official_only_witness :
  usePlugDescriptions sampleValues true (Some emptyDefs)
    (Some {[ 100%Z := longerInsight ]}) bungie (Some (armorModDef None))
  = Some {| resultPerks := armorModEntries; communityInsight := None |}.
Proof.
  refine (official_only sampleValues (armorModDef None) emptyDefs armorModEntries
            {[ "Deals fire damage" ]} true (Some {[ 100%Z := longerInsight ]}) bungie _ _).
  - vm_compute. reflexivity.
  - right. reflexivity.
Defined.

(** X24 at [armorModDef] and [longerInsight]. *)
Lemma community_shown_witness :
  usePlugDescriptions sampleValues true (Some emptyDefs)
    (Some {[ 100%Z := longerInsight ]}) community (Some (armorModDef None))
  = Some {| resultPerks := []; communityInsight := Some longerInsight |}
  ∧ usePlugDescriptions sampleValues true (Some emptyDefs)
      (Some {[ 100%Z := longerInsight ]}) both (Some (armorModDef None))
    = Some {| resultPerks := armorModEntries; communityInsight := Some longerInsightStripped |}.
Proof.
  refine (community_shown sampleValues (armorModDef None) emptyDefs armorModEntries
            {[ "Deals fire damage" ]} (Some {[ 100%Z := longerInsight ]})
            longerInsight longerInsightStripped _ _ _ _);
    vm_compute; reflexivity.
Defined.

(** X25 at [longerInsight]. *)
Lemma stripUsedStrings_idempotent_witness :
  stripUsedStrings longerInsightStripped {[ "Deals fire damage" ]} = Some longerInsightStripped.
Proof.
  apply (stripUsedStrings_idempotent longerInsight {[ "Deals fire damage" ]}
           longerInsightStripped).
  vm_compute. reflexivity.
Defined.

(** X26 at [longerInsight]. *)
Lemma stripUsedStrings_shape_witness :
  clarityHash longerInsightStripped = clarityHash longerInsight
  ∧ statOnly longerInsightStripped = statOnly longerInsight.
Proof.
  pose proof (stripUsedStrings_shape longerInsight {[ "Deals fire damage" ]}
                longerInsightStripped) as H.
  split; apply H; vm_compute; reflexivity.
Defined.

(** X27 at [longerInsight]: it survives without used strings because it
    survives with one. *)
Lemma stripUsedStrings_monotone_witness :
  is_Some (stripUsedStrings longerInsight ∅).
Proof.
  apply (stripUsedStrings_monotone longerInsight ∅ {[ "Deals fire damage" ]}).
  - apply empty_subseteq.
  - vm_compute. eauto.
Defined.

(** X28 at [iconInsight], whose only text is used. *)
Lemma textless_content_survives_witness :
  is_Some (stripUsedStrings iconInsight {[ "Deals fire damage" ]}).
Proof.
  refine (textless_content_survives iconInsight {[ "Deals fire damage" ]} _ _ eq_refl _ _).
  - apply list_elem_of_here.
  - eexists _, {| text := None; contentClassNames := ["solar"] |}.
    split; [reflexivity|]. split; [apply list_elem_of_here|by left].
Defined.

(** X29 at [distinctStats]. *)
Lemma consolidate_distinct_unchanged_witness :
  consolidate plainTwoStats distinctStats = (distinctStats, []).
Proof.
  apply (consolidate_distinct_unchanged plainTwoStats distinctStats).
  vm_compute. repeat constructor; set_solver.
Defined.

(** X30 at [repeatedStats], none of which has a rule. *)
Lemma consolidate_merges_witness :
  NoDup (plugStatTypeHash <$> (consolidate plainTwoStats repeatedStats).1).
Proof.
  apply (proj2 (proj2 (consolidate_merges plainTwoStats repeatedStats))).
  intros x y Hx Hy.
  assert (∀ z, z ∈ repeatedStats → activityRule z = None) as Hnone.
  { intros z Hz. unfold repeatedStats in Hz. set_solver. }
  by rewrite (Hnone x Hx), (Hnone y Hy).
Defined.

(** * The duplicate test, the icon-only community text and the fallback *)


(** C7: a community description is kept when only an icon is left of it.
    The only text of [iconInsight] repeats the description of the armor mod
    and is stripped, the content without text stays, and the composer shows
    the remaining description, in which no content carries a text. *)
Theorem icon_only_insight_shown :
  getPerkDescriptions sampleValues (armorModDef None) emptyDefs
    = Some (armorModEntries, {[ "Deals fire damage" ]})
  ∧ stripUsedStrings iconInsight {[ "Deals fire damage" ]} = Some iconOnlyInsight
  ∧ withoutAnyText iconOnlyInsight
  ∧ usePlugDescriptions sampleValues true (Some emptyDefs)
      (Some {[ 100%Z := iconInsight ]}) both (Some (armorModDef None))
    = Some {| resultPerks := armorModEntries; communityInsight := Some iconOnlyInsight |}.
Proof.
  split; [vm_compute; reflexivity|]. split; [vm_compute; reflexivity|].
  split; [|vm_compute; reflexivity].
  intros lines [= <-]. repeat constructor. intros contents [= <-]. by repeat constructor.
Qed.

Section Fallback.

Variable kv : KnownValues.

Implicit Types (plug : DestinyInventoryItemDefinition) (defs : D2ManifestDefinitions).
Implicit Types (st : DescState) (used : gset string).

Lemma everyTextUsed_stripUsedStrings used clarityPerk :
  "" ∉ used → everyTextUsed used clarityPerk → stripUsedStrings clarityPerk used = None.
Proof.
  intros Hu Hall. rewrite stripUsedStrings_unfold by done.
  destruct (simpleDescription clarityPerk) as [lines|] eqn:Hlines; [|done].
  specialize (Hall lines Hlines). apply existsb_hasLineText in Hall. by rewrite Hall.
Qed.

Lemma useOnce_subseteq (o : option string) used : used ⊆ (useOnce o used).2.
Proof.
  unfold useOnce. destruct o as [t|]; [|done]. case_bool_decide; [done|]. set_solver.
Qed.

Lemma keepFirstPerk_subseteq plug defs st st' :
  keepFirstPerk plug defs st = Some st' → st.2 ⊆ st'.2.
Proof.
  unfold keepFirstPerk. destruct st.1; [|by intros [= <-]].
  destruct (perks plug) as [|firstPerk ?]; [by intros [= <-]|].
  destruct (SandboxPerk defs !! perkHash firstPerk) as [sandboxPerk|]; [|done]. simpl.
  intros Hst.
  assert (st.2 ⊆ (useOnce (orUndefined (requirementDisplayString firstPerk))
                    (useOnce (orUndefined (description (sandboxDisplayProperties sandboxPerk)))
                       st.2).2).2) as Hsub.
  { etrans; apply useOnce_subseteq. }
  by destruct (_ || _); injection Hst as <-.
Qed.

Lemma addDescriptionAsRequirement_used d st :
  d ∈ (addDescriptionAsRequirement (Some d) st).2.
Proof.
  unfold addDescriptionAsRequirement. case_bool_decide; [done|]. simpl. set_solver.
Qed.

Lemma addDescriptionAsFunctionality_used d st :
  d ∈ (addDescriptionAsFunctionality (Some d) st).2.
Proof.
  unfold addDescriptionAsFunctionality. case_bool_decide; [done|]. simpl. set_solver.
Qed.

(** The description of the plug, when there is one, is among the used
    strings, and is therefore shown by one of the entries. *)
Lemma getPerkDescriptions_description_used plug defs entries used :
  getPerkDescriptions kv plug defs = Some (entries, used) →
  description (displayProperties plug) ≠ "" →
  description (displayProperties plug) ∈ used.
Proof.
  unfold getPerkDescriptions. intros (st & Hst & Hk)%bind_Some Hdesc.
  apply keepFirstPerk_subseteq in Hk. apply Hk. clear Hk.
  rewrite orUndefined_nonempty in Hst by done.
  destruct (includes_opt (traitHashes plug) _).
  { apply bind_Some in Hst as (st0 & _ & [= <-]).
    apply addDescriptionAsRequirement_used. }
  destruct (includes_opt (itemCategoryHashes plug) _).
  { apply bind_Some in Hst as (st0 & _ & Hst).
    case_bool_decide; injection Hst as <-;
      [apply addDescriptionAsRequirement_used|apply addDescriptionAsFunctionality_used]. }
  simplify_eq. apply (addDescriptionAsFunctionality_used _ ([], ∅)).
Qed.

(** C8, as the code has it: with the community-only setting, when no
    community description of the plug is left to show (the feature is off,
    the table has no entry, the entry is stat-only, or every text of the
    entry is already used), the composer returns the official perk
    descriptions and no community description. A plug with a description
    has at least one official entry, so it is not left blank. *)
Theorem community_only_shows_official clarityDescriptions defs allClarityDescriptions
    plug entries used :
  getPerkDescriptions kv plug defs = Some (entries, used) →
  noCommunityText clarityDescriptions allClarityDescriptions plug used →
  usePlugDescriptions kv clarityDescriptions (Some defs) allClarityDescriptions
    community (Some plug)
  = Some {| resultPerks := entries; communityInsight := None |}
  ∧ (description (displayProperties plug) ≠ "" → entries ≠ []).
Proof.
  intros Hget Hnone. split.
  - pose proof (getPerkDescriptions_nonempty _ _ _ _ _ Hget) as Hu.
    unfold usePlugDescriptions. rewrite Hget. simpl.
    destruct Hnone as [-> | [Htable | (clarityPerk & Htable & [Hstat|Hall])]].
    + done.
    + rewrite Htable. by destruct clarityDescriptions.
    + rewrite Htable, Hstat. by destruct clarityDescriptions.
    + rewrite Htable, (everyTextUsed_stripUsedStrings _ _ Hu Hall).
      by destruct clarityDescriptions, (statOnly clarityPerk).
  - intros Hdesc ->.
    pose proof (getPerkDescriptions_description_used _ _ _ _ Hget Hdesc) as Hin.
    destruct (descInv_getPerkDescriptions _ _ _ _ _ Hget) as (_ & Hused & _).
    apply Hused in Hin. by apply elem_of_nil in Hin.
Qed.

End Fallback.

(** C8 fails on [blankDef], a plug without description and without perks:
    with the community-only setting and no community description, the
    composer returns no entry at all. *)
Lemma blank_plug_counterexample :
  description (displayProperties blankDef) = ""
  ∧ perks blankDef = []
  ∧ usePlugDescriptions sampleValues true (Some emptyDefs) (Some ∅) community (Some blankDef)
    = Some {| resultPerks := []; communityInsight := None |}.
Proof. split; [reflexivity|]. split; [reflexivity|]. vm_compute. reflexivity. Qed.

(** C8 as the code has it, at [armorModDef] and [repeatedInsight], whose
    only text is the description of the mod. *)
Lemma community_only_shows_official_witness :
  usePlugDescriptions sampleValues true (Some emptyDefs)
    (Some {[ 100%Z := repeatedInsight ]}) community (Some (armorModDef None))
  = Some {| resultPerks := armorModEntries; communityInsight := None |}
  ∧ armorModEntries ≠ [].
Proof.
  assert (getPerkDescriptions sampleValues (armorModDef None) emptyDefs
          = Some (armorModEntries, {[ "Deals fire damage" ]})) as Hget.
  { vm_compute. reflexivity. }
  assert (noCommunityText true (Some {[ 100%Z := repeatedInsight ]}) (armorModDef None)
            {[ "Deals fire damage" ]}) as Hnone.
  { right. right. exists repeatedInsight. split; [vm_compute; reflexivity|]. right.
    intros lines [= <-]. apply Forall_cons. split; [|constructor].
    intros contents [= <-]. apply Forall_cons. split; [|constructor].
    unfold textUsed. simpl. set_solver. }
  destruct (community_only_shows_official sampleValues true emptyDefs
              (Some {[ 100%Z := repeatedInsight ]}) (armorModDef None)
              armorModEntries {[ "Deals fire damage" ]} Hget Hnone) as [Huse Hentries].
  split; [exact Huse|]. apply Hentries. vm_compute. discriminate.
Defined.
